(** * Sales dashboard: the filtering and aggregation engine

    A shallow embedding of [sales_data_dashboard.py]: the row built by
    [generate_sales_data], the sidebar filters of [apply_filters], the KPI
    bundle of [calculate_kpis] and the grouped roll-ups computed in
    [create_visualizations].

    A pandas frame is a list of rows in index order.  Two readings of the
    float columns ([price], [discount], [revenue]) are used.  For the
    filters and the structure of the roll-ups the columns are exact
    rationals ([Qc]): comparisons of finite floats agree with comparisons
    of the rationals they denote, and the sums there are the exact ones.
    For the values the code returns, the KPI engine is given a second time
    in binary64 and int64 ([Sale64], [calculate_kpis64], [rev_by_cat64]).
    The derived columns [return_status] and [month] are functions of the
    row. *)

From Stdlib Require Import QArith Qcanon Floats Uint63.
From stdpp Require Import base list strings numbers sorting.

(** ** Calendar dates *)

(** A [datetime.date]: Python orders dates by (year, month, day). *)
Record Date := mkDate { year : Z; month : Z; day : Z }.

Definition date_le (a b : Date) : Prop :=
  (year a < year b)%Z ∨
  (year a = year b ∧
   ((month a < month b)%Z ∨ (month a = month b ∧ (day a ≤ day b)%Z))).

#[global] Instance date_eq_dec : EqDecision Date.
Proof. solve_decision. Defined.

#[global] Instance date_le_dec : RelDecision date_le.
Proof. intros a b. unfold date_le. apply _. Defined.

(** ** Rows of the frame *)

(** One entry of [records] (lines 53-63).  [returned] is the 0/1 integer
    [int(np.random.rand() < 0.05)], kept as a boolean and read back as an
    integer where the source sums the column. *)
Record Sale := mkSale {
  sale_id : Z;
  category : string;
  region : string;
  date : Date;
  price : Qc;
  quantity : Z;
  discount : Qc;
  revenue : Qc;
  returned : bool
}.

(** The body of the generator's loop with the random draws as arguments:
    [revenue = price * quantity * (1 - discount)] is computed here, once
    (line 50), and stored. *)
Definition sale_row (sale_id : Z) (category region : string) (date : Date)
    (price : Qc) (quantity : Z) (discount : Qc) (returned : bool) : Sale :=
  let revenue := (price * Qc_of_Z quantity * (1 - discount))%Qc in
  {| sale_id := sale_id; category := category; region := region;
     date := date; price := price; quantity := quantity;
     discount := discount; revenue := revenue; returned := returned |}.

(** The column [df['returned'].map({0: 'Not Returned', 1: 'Returned'})]
    (line 67). *)
Definition return_status (r : Sale) : string :=
  if returned r then "Returned" else "Not Returned".

(** ** pandas reductions over a column *)

(** The sums over [Qc] are exact: they give what the columns add up to as
    real numbers, not the rounded float the code holds. *)
Definition sum_Qc (l : list Qc) : Qc := foldr Qcplus 0%Qc l.
Definition sum_Z (l : list Z) : Z := foldr Z.add 0%Z l.

(** [Series.mean]: the sum divided by the number of rows. *)
Definition mean_Qc (l : list Qc) : Qc :=
  (sum_Qc l / Qc_of_Z (Z.of_nat (length l)))%Qc.

(** [Series.min] and [Series.max]; [None] on a column without rows. *)
Section Extrema.
Context {A : Type} (le : relation A) `{!RelDecision le}.

Definition series_min (l : list A) : option A :=
  match l with
  | [] => None
  | x :: xs => Some (foldl (λ m y, if decide (le y m) then y else m) x xs)
  end.

Definition series_max (l : list A) : option A :=
  match l with
  | [] => None
  | x :: xs => Some (foldl (λ m y, if decide (le m y) then y else m) x xs)
  end.
End Extrema.

(** ** The filter engine: [apply_filters] *)

(** What the sidebar hands to the filtering code of lines 116-141. *)
Record Selection := mkSelection {
  selected_category : string;
  selected_region : string;
  date_range : list Date;
  min_price : Qc;
  max_price : Qc;
  selected_return : string
}.

(** Lines 116-141: the boolean masks, applied one after the other. *)
Definition filter_records (df : list Sale) (sel : Selection) : list Sale :=
  let filtered_df := df in
  let filtered_df :=
    if decide (selected_category sel ≠ "All")
    then filter (λ r, category r = selected_category sel) filtered_df
    else filtered_df in
  let filtered_df :=
    if decide (selected_region sel ≠ "All")
    then filter (λ r, region r = selected_region sel) filtered_df
    else filtered_df in
  let filtered_df :=
    match date_range sel with
    | d0 :: d1 :: _ =>
        filter (λ r, date_le d0 (date r) ∧ date_le (date r) d1) filtered_df
    | [d0] => filter (λ r, date r = d0) filtered_df
    | [] => filtered_df
    end in
  let filtered_df :=
    filter (λ r, (min_price sel ≤ price r)%Qc ∧ (price r ≤ max_price sel)%Qc)
           filtered_df in
  if decide (selected_return sel ≠ "All")
  then filter (λ r, return_status r = selected_return sel) filtered_df
  else filtered_df.

(** The possible outcomes of the [st.sidebar.date_input] call inside the
    [try] block: a list or tuple of dates, a bare date, or an exception. *)
Inductive DateInput :=
  | DateSeq (ds : list Date)
  | DateOne (d : Date)
  | DateRaised.

(** Lines 87-100. *)
Definition normalize_date_range (min_date max_date : Date)
    (inp : DateInput) : list Date :=
  match inp with
  | DateSeq [d] => [d; d]
  | DateSeq ds => ds
  | DateOne d => [d; d]
  | DateRaised => [min_date; max_date]
  end.

(** The values the five sidebar widgets return. *)
Record Sidebar := mkSidebar {
  category_box : string;
  region_box : string;
  date_input : DateInput;
  price_slider : Qc * Qc;
  return_box : string
}.

Definition min_date_of (df : list Sale) : option Date :=
  series_min date_le (date <$> df).
Definition max_date_of (df : list Sale) : option Date :=
  series_max date_le (date <$> df).
Definition min_price_of (df : list Sale) : option Qc :=
  series_min Qcle (price <$> df).
Definition max_price_of (df : list Sale) : option Qc :=
  series_max Qcle (price <$> df).

(** The whole of [apply_filters] on a frame with rows.  The date bounds of
    the frame are taken before the widgets are read (lines 83-84); a frame
    without rows has none, and this embedding leaves it out ([None]). *)
Definition apply_filters (df : list Sale) (sb : Sidebar)
    : option (list Sale) :=
  min_date ← min_date_of df;
  max_date ← max_date_of df;
  let date_range := normalize_date_range min_date max_date (date_input sb) in
  let '(min_price, max_price) := price_slider sb in
  Some (filter_records df
          {| selected_category := category_box sb;
             selected_region := region_box sb;
             date_range := date_range;
             min_price := min_price;
             max_price := max_price;
             selected_return := return_box sb |}).

(** The initial state of the widgets: the select boxes show their first
    option, the date input and the slider span the frame (lines 90, 107). *)
Definition default_selection (df : list Sale) : option Selection :=
  min_date ← min_date_of df;
  max_date ← max_date_of df;
  lo ← min_price_of df;
  hi ← max_price_of df;
  Some {| selected_category := "All"; selected_region := "All";
          date_range := [min_date; max_date];
          min_price := lo; max_price := hi;
          selected_return := "All" |}.

(** ** The aggregation engine: [calculate_kpis], in exact arithmetic *)

Record Kpis := mkKpis {
  total_sales : Z;
  total_revenue : Qc;
  avg_order_value : Qc;
  return_rate : Qc;
  avg_discount : Qc;
  total_quantity : Z
}.

Definition len (df : list Sale) : Z := Z.of_nat (length df).

Definition calculate_kpis (df : list Sale) : Kpis :=
  if decide (len df = 0%Z) then
    {| total_sales := 0; total_revenue := 0; avg_order_value := 0;
       return_rate := 0; avg_discount := 0; total_quantity := 0 |}
  else
    let total_sales := len df in
    let total_revenue := sum_Qc (revenue <$> df) in
    let avg_order_value := mean_Qc (revenue <$> df) in
    let return_rate :=
      (Qc_of_Z (sum_Z ((λ r, Z.b2z (returned r)) <$> df)) / Qc_of_Z (len df)
       * Qc_of_Z 100)%Qc in
    let avg_discount := (mean_Qc (discount <$> df) * Qc_of_Z 100)%Qc in
    let total_quantity := sum_Z (quantity <$> df) in
    {| total_sales := total_sales; total_revenue := total_revenue;
       avg_order_value := avg_order_value; return_rate := return_rate;
       avg_discount := avg_discount; total_quantity := total_quantity |}.

(** ** Grouped roll-ups *)

(** [df.groupby(key)[col].sum()]: one row per distinct key, keys in sorted
    order, each with the sum of [col] over the rows of its group. *)
Section GroupBy.
Context {K : Type} `{!EqDecision K} (key_le : relation K)
        `{!RelDecision key_le}.

Definition group_keys (key : Sale → K) (df : list Sale) : list K :=
  merge_sort key_le (remove_dups (key <$> df)).

Definition group_rows (key : Sale → K) (k : K) (df : list Sale)
    : list Sale :=
  filter (λ r, key r = k) df.

Definition groupby_sum (key : Sale → K) (col : Sale → Qc)
    (df : list Sale) : list (K * Qc) :=
  (λ k, (k, sum_Qc (col <$> group_rows key k df))) <$> group_keys key df.
End GroupBy.

(** [Series.sort_values(ascending=False)] on the aggregate. *)
Definition value_ge {K : Type} (a b : K * Qc) : Prop := (b.2 ≤ a.2)%Qc.

#[global] Instance value_ge_dec {K : Type} : RelDecision (@value_ge K).
Proof. intros a b. unfold value_ge. apply _. Defined.

Definition sort_values_desc {K : Type} (s : list (K * Qc)) : list (K * Qc) :=
  merge_sort value_ge s.

(** Python's order on strings and on pairs of strings. *)
Definition str_le (a b : string) : Prop := Is_true (String.leb a b).

Definition pair_le (a b : string * string) : Prop :=
  Is_true (String.ltb a.1 b.1) ∨ (a.1 = b.1 ∧ str_le a.2 b.2).

#[global] Instance str_le_dec : RelDecision str_le.
Proof. intros a b. unfold str_le. apply _. Defined.

#[global] Instance pair_le_dec : RelDecision pair_le.
Proof. intros a b. unfold pair_le. apply _. Defined.

(** Line 249. *)
Definition rev_by_cat (df : list Sale) : list (string * Qc) :=
  sort_values_desc (groupby_sum str_le category revenue df).

(** Line 497. *)
Definition sunburst_data (df : list Sale) : list ((string * string) * Qc) :=
  groupby_sum pair_le (λ r, (region r, category r)) revenue df.

(** The same grouping with [region] alone as the key. *)
Definition rev_by_region (df : list Sale) : list (string * Qc) :=
  groupby_sum str_le region revenue df.

(** ** The three-row scenario *)

Definition dec (n : Z) (d : positive) : Qc := Q2Qc (n # d).

Definition sale1 : Sale :=
  sale_row 1 "Electronics" "North" (mkDate 2024 1 5) (dec 100 1) 2 (dec 1 10) false.
Definition sale2 : Sale :=
  sale_row 2 "Clothing" "South" (mkDate 2024 1 10) (dec 50 1) 1 (dec 0 1) true.
Definition sale3 : Sale :=
  sale_row 3 "Electronics" "East" (mkDate 2024 2 1) (dec 200 1) 1 (dec 2 10) false.

Definition scenario : list Sale := [sale1; sale2; sale3].

Definition any_date_price : Selection :=
  {| selected_category := "All"; selected_region := "All";
     date_range := [mkDate 2024 1 1; mkDate 2024 12 31];
     min_price := dec 0 1; max_price := dec 500 1;
     selected_return := "All" |}.

Definition electronics_only : Selection :=
  {| selected_category := "Electronics"; selected_region := "All";
     date_range := [mkDate 2024 1 1; mkDate 2024 12 31];
     min_price := dec 0 1; max_price := dec 500 1;
     selected_return := "All" |}.

(** ** The filter as one predicate *)

(** The date mask of lines 125-131 on one date. *)
Definition in_date_range (ds : list Date) (d : Date) : Prop :=
  match ds with
  | d0 :: d1 :: _ => date_le d0 d ∧ date_le d d1
  | [d0] => d = d0
  | [] => True
  end.

#[global] Instance in_date_range_dec ds d : Decision (in_date_range ds d).
Proof. destruct ds as [|? [|? ?]]; simpl; apply _. Defined.

(** The conjunction of the masks that [sel] switches on. *)
Definition keeps (sel : Selection) (r : Sale) : Prop :=
  (selected_category sel ≠ "All" → category r = selected_category sel) ∧
  (selected_region sel ≠ "All" → region r = selected_region sel) ∧
  in_date_range (date_range sel) (date r) ∧
  ((min_price sel ≤ price r)%Qc ∧ (price r ≤ max_price sel)%Qc) ∧
  (selected_return sel ≠ "All" → return_status r = selected_return sel).

#[global] Instance keeps_dec sel r : Decision (keeps sel r).
Proof. unfold keeps. apply _. Defined.

(** The constraint set as the specification describes it: a date range
    given by its two bounds, in order, and a price range in order. *)
Definition well_formed (sel : Selection) (lo hi : Date) : Prop :=
  date_range sel = [lo; hi] ∧ date_le lo hi ∧
  (min_price sel ≤ max_price sel)%Qc.

(** The predicates of the specification, spelled out for a range with the
    bounds [lo] and [hi]: a selector that is not ['All'] asks for equality. *)
Definition satisfies (sel : Selection) (lo hi : Date) (r : Sale) : Prop :=
  (selected_category sel = "All" ∨ category r = selected_category sel) ∧
  (selected_region sel = "All" ∨ region r = selected_region sel) ∧
  (date_le lo (date r) ∧ date_le (date r) hi) ∧
  ((min_price sel ≤ price r)%Qc ∧ (price r ≤ max_price sel)%Qc) ∧
  (selected_return sel = "All" ∨ return_status r = selected_return sel).

#[global] Instance satisfies_dec sel lo hi r : Decision (satisfies sel lo hi r).
Proof. unfold satisfies. apply _. Defined.

(** One range of [c2] is wider than in [c1], everything else is equal. *)
Inductive widens : Selection → Selection → Prop :=
  | widen_dates cat reg lo hi lo' hi' pmin pmax ret :
      date_le lo' lo → date_le hi hi' →
      widens (mkSelection cat reg [lo; hi] pmin pmax ret)
             (mkSelection cat reg [lo'; hi'] pmin pmax ret)
  | widen_prices cat reg ds pmin pmax pmin' pmax' ret :
      (pmin' ≤ pmin)%Qc → (pmax ≤ pmax')%Qc →
      widens (mkSelection cat reg ds pmin pmax ret)
             (mkSelection cat reg ds pmin' pmax' ret).

(** ** Malformed date input, and the KPI table of the specification *)

(** The date widget handed back one bound only: a sequence of length one,
    or a bare date. *)
Definition single_bound (inp : DateInput) (D : Date) : Prop :=
  inp = DateSeq [D] ∨ inp = DateOne D.

(** The selection built from the sidebar once the date range is known. *)
Definition selection_with (sb : Sidebar) (ds : list Date) : Selection :=
  {| selected_category := category_box sb;
     selected_region := region_box sb;
     date_range := ds;
     min_price := (price_slider sb).1;
     max_price := (price_slider sb).2;
     selected_return := return_box sb |}.

Definition zero_kpis : Kpis :=
  {| total_sales := 0; total_revenue := 0; avg_order_value := 0;
     return_rate := 0; avg_discount := 0; total_quantity := 0 |}.

(** The number of returned rows. *)
Definition count_returned (df : list Sale) : Z :=
  Z.of_nat (length (filter (λ r, returned r = true) df)).

(** ** The generator: [generate_sales_data] *)

(** The Gregorian calendar of [datetime]: leap years, month lengths and
    the day after a date. *)
Definition is_leap (y : Z) : bool :=
  bool_decide (y mod 4 = 0 ∧ (y mod 100 ≠ 0 ∨ y mod 400 = 0))%Z.

Definition days_in_month (y m : Z) : Z :=
  if decide (m = 2%Z) then (if is_leap y then 29 else 28)%Z
  else if decide (m ∈ [4; 6; 9; 11]%Z) then 30%Z
  else 31%Z.

Definition next_day (d : Date) : Date :=
  if decide (day d < days_in_month (year d) (month d))%Z
  then mkDate (year d) (month d) (day d + 1)
  else if decide (month d < 12)%Z
  then mkDate (year d) (month d + 1) 1
  else mkDate (year d + 1) 1 1.

(** [d + timedelta(days=k)] for a number of days [k >= 0]. *)
Definition add_days (d : Date) (k : nat) : Date := Nat.iter k next_day d.

(** Lines 37-39. *)
Definition start : Date := mkDate 2024 1 1.
Definition categories : list string :=
  ["Electronics"; "Clothing"; "Home"; "Beauty"; "Sports"].
Definition regions : list string := ["North"; "South"; "East"; "West"].

(** What one round of the loop draws from numpy's generator (lines 44-51):
    the category, the region, the number of days after [start], the price,
    the quantity, the discount and the outcome of [rand() < 0.05]. *)
Record Draw := mkDraw {
  draw_category : string;
  draw_region : string;
  draw_days : nat;
  draw_price : Qc;
  draw_quantity : Z;
  draw_discount : Qc;
  draw_returned : bool
}.

(** The ranges of the numpy calls: [choice] picks from its list,
    [randint(0, 180)] and [randint(1, 10)] exclude the upper end,
    [uniform(5, 500)] and [uniform(0, 0.3)] stay within their bounds. *)
Definition drawn_in_range (d : Draw) : Prop :=
  draw_category d ∈ categories ∧ draw_region d ∈ regions ∧
  draw_days d < 180 ∧
  (Qc_of_Z 5 ≤ draw_price d)%Qc ∧ (draw_price d ≤ Qc_of_Z 500)%Qc ∧
  (1 ≤ draw_quantity d < 10)%Z ∧
  (0 ≤ draw_discount d)%Qc ∧ (draw_discount d ≤ Q2Qc (3 # 10))%Qc.

(** Lines 42-65: round [i] of the loop appends the row with id [i + 1];
    the frame has one row per round.  This is the frame for at least one
    round: with no round the source has no frame to return, line 66 fails
    on the missing [date] column. *)
Definition generate_sales_data (draws : list Draw) : list Sale :=
  imap (λ i d,
          sale_row (Z.of_nat i + 1) (draw_category d) (draw_region d)
                   (add_days start (draw_days d)) (draw_price d)
                   (draw_quantity d) (draw_discount d) (draw_returned d))
       draws.

(** The [month] column (line 66): the period of the date, as the text
    [YYYY-MM] (character 45 is the hyphen). *)
Definition digit (n : Z) : Ascii.ascii := Ascii.ascii_of_N (48 + Z.to_N n).

Definition month_text (d : Date) : string :=
  String (digit (year d / 1000))
    (String (digit (year d / 100 mod 10))
       (String (digit (year d / 10 mod 10))
          (String (digit (year d mod 10))
             (String (Ascii.ascii_of_N 45)
                (String (digit (month d / 10))
                   (String (digit (month d mod 10)) "")))))).

Definition sale_month (r : Sale) : string := month_text (date r).

(** ** The select boxes of [apply_filters] *)

(** Lines 75 and 79: ['All'] followed by the sorted distinct values. *)
Definition category_options (df : list Sale) : list string :=
  "All" :: merge_sort str_le (remove_dups (category <$> df)).

Definition region_options (df : list Sale) : list string :=
  "All" :: merge_sort str_le (remove_dups (region <$> df)).

(** A selection with another choice in the return-status box. *)
Definition with_return (sel : Selection) (choice : string) : Selection :=
  {| selected_category := selected_category sel;
     selected_region := selected_region sel;
     date_range := date_range sel;
     min_price := min_price sel;
     max_price := max_price sel;
     selected_return := choice |}.

(** The masks of lines 118-122 and 133-139: all but the date mask. *)
Definition passes_other_masks (sb : Sidebar) (r : Sale) : Prop :=
  (category_box sb ≠ "All" → category r = category_box sb) ∧
  (region_box sb ≠ "All" → region r = region_box sb) ∧
  ((price_slider sb).1 ≤ price r)%Qc ∧ (price r ≤ (price_slider sb).2)%Qc ∧
  (return_box sb ≠ "All" → return_status r = return_box sb).

#[global] Instance passes_other_masks_dec sb r :
  Decision (passes_other_masks sb r).
Proof. unfold passes_other_masks. apply _. Defined.

(** ** The other roll-ups of [create_visualizations] *)

Section GroupByCounts.
Context {K : Type} `{!EqDecision K} (key_le : relation K)
        `{!RelDecision key_le}.

(** [df.groupby(key).size()]. *)
Definition groupby_size (key : Sale → K) (df : list Sale) : list (K * Z) :=
  (λ k, (k, len (group_rows key k df))) <$> group_keys key_le key df.

(** [df.groupby(key)[col].sum()] on an integer column. *)
Definition groupby_sum_Z (key : Sale → K) (col : Sale → Z)
    (df : list Sale) : list (K * Z) :=
  (λ k, (k, sum_Z (col <$> group_rows key k df))) <$> group_keys key_le key df.
End GroupByCounts.

(** [sort_values(ascending=False)] on an integer aggregate.  pandas does
    not fix the order of rows with equal values. *)
Definition count_ge {K : Type} (a b : K * Z) : Prop := (b.2 ≤ a.2)%Z.

#[global] Instance count_ge_dec {K : Type} : RelDecision (@count_ge K).
Proof. intros a b. unfold count_ge. apply _. Defined.

Definition sort_counts_desc {K : Type} (s : list (K * Z)) : list (K * Z) :=
  merge_sort count_ge s.

(** Line 222. *)
Definition monthly_rev (df : list Sale) : list (string * Qc) :=
  groupby_sum str_le sale_month revenue df.

(** Line 313: [df['region'].value_counts()], the number of rows of each
    region, largest first. *)
Definition region_counts (df : list Sale) : list (string * Z) :=
  sort_counts_desc (groupby_size str_le region df).

(** Line 362. *)
Definition return_by_cat (df : list Sale) : list (string * Z) :=
  sort_counts_desc
    (groupby_sum_Z str_le category (λ r, Z.b2z (returned r)) df).

(** Line 403. *)
Definition daily_sales (df : list Sale) : list (Date * Z) :=
  groupby_size date_le date df.

(** Lines 424-428: one row per category with the three sums. *)
Record CategoryRow := mkCategoryRow {
  cp_category : string;
  cp_revenue : Qc;
  cp_quantity : Z;
  cp_returned : Z
}.

Definition cat_performance (df : list Sale) : list CategoryRow :=
  (λ k, let g := group_rows category k df in
        {| cp_category := k;
           cp_revenue := sum_Qc (revenue <$> g);
           cp_quantity := sum_Z (quantity <$> g);
           cp_returned := sum_Z ((λ r, Z.b2z (returned r)) <$> g) |})
    <$> group_keys str_le category df.

(** Earlier by strictly less than a day. *)
Definition date_lt (a b : Date) : Prop := date_le a b ∧ a ≠ b.

(** Earlier month: the order of the pairs (year, month). *)
Definition month_lt (a b : Date) : Prop :=
  (year a < year b)%Z ∨ (year a = year b ∧ (month a < month b)%Z).

(** ** The KPI engine in the code's own arithmetic

    The frame's [price], [discount] and [revenue] columns are float64 and
    its [quantity] and [returned] columns int64.  What follows computes in
    binary64 (Rocq's primitive floats) and in two's-complement int64, in the
    order of operations of the source. *)

(** An int64 sum wraps around. *)
Definition wrap64 (z : Z) : Z := ((z + 2 ^ 63) mod 2 ^ 64 - 2 ^ 63)%Z.

Definition sum_int64 (l : list Z) : Z :=
  foldl (λ acc x, wrap64 (acc + x)) 0%Z l.

(** The float64 nearest to an integer of magnitude below 2^63: what numpy
    does to an integer operand of a true division or of a product with a
    float. *)
Definition float_of_int (z : Z) : float :=
  if decide (0 ≤ z)%Z then of_uint63 (Uint63.of_Z z)
  else (- of_uint63 (Uint63.of_Z (- z)))%float.

(** Finite and not the negative zero. *)
Definition plain (x : float) : bool :=
  match classify x with
  | PNormal | NNormal | PSubn | NSubn | PZero => true
  | _ => false
  end.

(** The two float reductions of pandas are library code: [Series.sum]
    (numpy's [add.reduce]) and the sum of one group of a [groupby] (a
    compensated sum).  They are taken as parameters; all that is used of
    them is that a short column of plain numbers is added from left to
    right, starting from zero: numpy's loop for fewer than 8 elements, and
    the compensated sum when it has had no error to compensate yet. *)
Class FloatSums := {
  column_sum : list float → float;
  group_sum : list float → float;
  column_sum_short (l : list float) :
    length l < 8 → forallb plain l = true →
    column_sum l = foldl PrimFloat.add 0%float l;
  group_sum_short (l : list float) :
    length l ≤ 2 → forallb plain l = true →
    group_sum l = foldl PrimFloat.add 0%float l
}.

(** A row with its float64 columns. *)
Record Sale64 := mkSale64 {
  sale_id64 : Z;
  category64 : string;
  region64 : string;
  date64 : Date;
  price64 : float;
  quantity64 : Z;
  discount64 : float;
  revenue64 : float;
  returned64 : bool
}.

(** Line 50 in binary64: [price * quantity * (1 - discount)]. *)
Definition sale_row64 (sale_id : Z) (category region : string) (date : Date)
    (price : float) (quantity : Z) (discount : float) (returned : bool)
    : Sale64 :=
  let revenue := (price * float_of_int quantity * (1 - discount))%float in
  {| sale_id64 := sale_id; category64 := category; region64 := region;
     date64 := date; price64 := price; quantity64 := quantity;
     discount64 := discount; revenue64 := revenue; returned64 := returned |}.

Record Kpis64 := mkKpis64 {
  total_sales64 : Z;
  total_revenue64 : float;
  avg_order_value64 : float;
  return_rate64 : float;
  avg_discount64 : float;
  total_quantity64 : Z
}.

(** [calculate_kpis], lines 143-169.  [Series.mean] is the column sum
    divided by the number of rows as a float. *)
Definition calculate_kpis64 `{FloatSums} (df : list Sale64) : Kpis64 :=
  let n := Z.of_nat (length df) in
  if decide (n = 0%Z) then
    {| total_sales64 := 0; total_revenue64 := 0; avg_order_value64 := 0;
       return_rate64 := 0; avg_discount64 := 0; total_quantity64 := 0 |}
  else
    let total_sales := n in
    let total_revenue := column_sum (revenue64 <$> df) in
    let avg_order_value :=
      (column_sum (revenue64 <$> df) / float_of_int n)%float in
    let return_rate :=
      (float_of_int (sum_int64 ((λ r, Z.b2z (returned64 r)) <$> df))
       / float_of_int n * 100)%float in
    let avg_discount :=
      (column_sum (discount64 <$> df) / float_of_int n * 100)%float in
    let total_quantity := sum_int64 (quantity64 <$> df) in
    {| total_sales64 := total_sales; total_revenue64 := total_revenue;
       avg_order_value64 := avg_order_value; return_rate64 := return_rate;
       avg_discount64 := avg_discount; total_quantity64 := total_quantity |}.

Definition count_returned64 (df : list Sale64) : Z :=
  Z.of_nat (length (filter (λ r, returned64 r = true) df)).

(** Line 249 in binary64: the group sums, largest first. *)
Definition value_ge64 (a b : string * float) : Prop :=
  Is_true (PrimFloat.leb b.2 a.2).

#[global] Instance value_ge64_dec : RelDecision value_ge64.
Proof. intros a b. unfold value_ge64. apply _. Defined.




(** Adding every column from left to right satisfies the two laws; it
    serves to instantiate them, not as a model of long columns. *)
Definition left_to_right : FloatSums :=
  {| column_sum := foldl PrimFloat.add 0%float;
     group_sum := foldl PrimFloat.add 0%float;
     column_sum_short := λ _ _ _, eq_refl;
     group_sum_short := λ _ _ _, eq_refl |}.

(** The scenario in binary64: 0x1.999999999999ap-4 and 0x1.999999999999ap-3
    are the floats written 0.1 and 0.2. *)
Definition sale1_64 : Sale64 :=
  sale_row64 1 "Electronics" "North" (mkDate 2024 1 5)
             100 2 0x1.999999999999ap-4 false.
Definition sale2_64 : Sale64 :=
  sale_row64 2 "Clothing" "South" (mkDate 2024 1 10) 50 1 0 true.
Definition sale3_64 : Sale64 :=
  sale_row64 3 "Electronics" "East" (mkDate 2024 2 1)
             200 1 0x1.999999999999ap-3 false.

Definition scenario64 : list Sale64 := [sale1_64; sale2_64; sale3_64].


(** ** Order facts *)

Lemma date_le_refl d : date_le d d.
Proof. unfold date_le. lia. Qed.

Lemma date_le_trans a b c : date_le a b → date_le b c → date_le a c.
Proof. unfold date_le. lia. Qed.

Lemma date_le_total a b : date_le a b ∨ date_le b a.
Proof. unfold date_le. lia. Qed.

Lemma date_le_antisym a b : date_le a b → date_le b a → a = b.
Proof.
  destruct a as [ya ma da], b as [yb mb db]. unfold date_le. simpl.
  intros H1 H2. f_equal; lia.
Qed.

#[global] Instance date_le_preorder : PreOrder date_le.
Proof. split; [exact date_le_refl | exact date_le_trans]. Qed.

#[global] Instance date_le_is_total : Total date_le.
Proof. exact date_le_total. Qed.

(** The status column tells the [returned] flag apart. *)
Lemma return_status_returned (r : Sale) :
  (return_status r = "Returned" ↔ returned r = true) ∧
  (return_status r = "Not Returned" ↔ returned r = false).
Proof. unfold return_status. by destruct (returned r). Qed.

(** ** Lemmas on masks *)

Section Masks.
Context {A : Type}.
Implicit Types l : list A.

Lemma filter_guard (C : Prop) `{!Decision C}
    (P : A → Prop) `{!∀ x, Decision (P x)} l :
  (if decide C then filter P l else l) = filter (λ x, C → P x) l.
Proof.
  destruct (decide C) as [HC|HC].
  - induction l as [|x l IH]; [done|].
    rewrite !filter_cons, IH.
    destruct (decide (P x)), (decide (C → P x)); tauto.
  - induction l as [|x l IH]; [done|].
    rewrite filter_cons_True by (intros ?; contradiction).
    by rewrite <-IH.
Qed.

Lemma filter_ext (P Q : A → Prop)
    `{!∀ x, Decision (P x)} `{!∀ x, Decision (Q x)} l :
  (∀ x, x ∈ l → P x ↔ Q x) → filter P l = filter Q l.
Proof.
  induction l as [|x l IH]; intros HPQ; [done|].
  rewrite !filter_cons.
  assert (P x ↔ Q x) as Hx by (apply HPQ; left).
  rewrite IH by (intros y Hy; apply HPQ; by right).
  destruct (decide (P x)), (decide (Q x)); tauto.
Qed.

Lemma filter_and (P Q : A → Prop)
    `{!∀ x, Decision (P x)} `{!∀ x, Decision (Q x)} l :
  filter Q (filter P l) = filter (λ x, P x ∧ Q x) l.
Proof.
  induction l as [|x l IH]; [done|].
  rewrite (filter_cons P), (filter_cons (λ x, P x ∧ Q x)).
  destruct (decide (P x)) as [HP|HP].
  - rewrite filter_cons, IH.
    destruct (decide (Q x)), (decide (P x ∧ Q x)); tauto.
  - rewrite IH. destruct (decide (P x ∧ Q x)); tauto.
Qed.

Lemma filter_all (P : A → Prop) `{!∀ x, Decision (P x)} l :
  (∀ x, x ∈ l → P x) → filter P l = l.
Proof.
  induction l as [|x l IH]; intros HP; [done|].
  rewrite filter_cons_True by (apply HP; left).
  f_equal. apply IH. intros y Hy. apply HP. by right.
Qed.

Lemma filter_sublist (P : A → Prop) `{!∀ x, Decision (P x)} l :
  filter P l `sublist_of` l.
Proof.
  induction l as [|x l IH]; [constructor|].
  rewrite filter_cons. destruct (decide (P x)); by constructor.
Qed.

Lemma filter_weaken (P Q : A → Prop)
    `{!∀ x, Decision (P x)} `{!∀ x, Decision (Q x)} l :
  (∀ x, P x → Q x) → filter P l `sublist_of` filter Q l.
Proof.
  intros HPQ. induction l as [|x l IH]; [constructor|].
  rewrite !filter_cons.
  destruct (decide (P x)) as [HP|HP], (decide (Q x)) as [HQ|HQ].
  - by constructor.
  - destruct HQ. by apply HPQ.
  - by constructor.
  - done.
Qed.
End Masks.

Lemma filter_records_keeps df sel :
  filter_records df sel = filter (keeps sel) df.
Proof.
  unfold filter_records.
  rewrite !filter_guard.
  assert (∀ l : list Sale,
    match date_range sel with
    | d0 :: d1 :: _ =>
        filter (λ r, date_le d0 (date r) ∧ date_le (date r) d1) l
    | [d0] => filter (λ r, date r = d0) l
    | [] => l
    end = filter (λ r, in_date_range (date_range sel) (date r)) l) as ->.
  { intros l. destruct (date_range sel) as [|d0 [|d1 ds]]; simpl.
    - symmetry. by apply filter_all.
    - done.
    - done. }
  rewrite !filter_and.
  apply filter_ext. intros r _. unfold keeps. tauto.
Qed.

Lemma keeps_satisfies sel lo hi r :
  date_range sel = [lo; hi] → keeps sel r ↔ satisfies sel lo hi r.
Proof.
  intros Hd. unfold keeps, satisfies. rewrite Hd. simpl.
  destruct (decide (selected_category sel = "All")),
           (decide (selected_region sel = "All")),
           (decide (selected_return sel = "All")); tauto.
Qed.

(** ** The filter engine *)

(** C1.  For a well-formed constraint set (a date range [lo, hi] with
    [lo <= hi], a price range in order, selectors that are ['All'] or one
    value) the filtered frame is a subsequence of the frame in the original
    order; it consists of exactly the rows that satisfy every active
    predicate, so each kept row satisfies them all and each row failing one
    is dropped; and the price bounds are inclusive: a row priced exactly at
    a bound is kept when its other predicates hold. *)
Theorem filter_sound_complete (df : list Sale) (sel : Selection)
    (lo hi : Date) :
  well_formed sel lo hi →
  filter_records df sel `sublist_of` df ∧
  filter_records df sel = filter (satisfies sel lo hi) df ∧
  (∀ r, r ∈ filter_records df sel → satisfies sel lo hi r) ∧
  (∀ r, r ∈ df → ¬ satisfies sel lo hi r → r ∉ filter_records df sel) ∧
  (∀ r, r ∈ df →
     (selected_category sel = "All" ∨ category r = selected_category sel) →
     (selected_region sel = "All" ∨ region r = selected_region sel) →
     date_le lo (date r) ∧ date_le (date r) hi →
     (selected_return sel = "All" ∨ return_status r = selected_return sel) →
     price r = min_price sel ∨ price r = max_price sel →
     r ∈ filter_records df sel).
Proof.
  intros (Hd & Hlo & Hp).
  assert (filter_records df sel = filter (satisfies sel lo hi) df) as Heq.
  { rewrite filter_records_keeps. apply filter_ext.
    intros r _. by apply keeps_satisfies. }
  rewrite Heq. split; [apply filter_sublist|]. split; [done|].
  split; [|split].
  - intros r Hr. by apply list_elem_of_filter in Hr as [? _].
  - intros r _ Hn Hr. by apply list_elem_of_filter in Hr as [? _].
  - intros r Hr Hc Hg Hdt Hs Hb. apply list_elem_of_filter. split; [|done].
    unfold satisfies. repeat split; try tauto.
    + destruct Hb as [->| ->]; [apply Qcle_refl | done].
    + destruct Hb as [->| ->]; [done | apply Qcle_refl].
Qed.

Lemma filter_sound_complete_witness :
  well_formed electronics_only (mkDate 2024 1 1) (mkDate 2024 12 31) ∧
  filter_records scenario electronics_only `sublist_of` scenario ∧
  filter_records scenario electronics_only
    = filter (satisfies electronics_only (mkDate 2024 1 1) (mkDate 2024 12 31))
             scenario.
Proof.
  assert (well_formed electronics_only (mkDate 2024 1 1) (mkDate 2024 12 31))
    as Hwf.
  { split; [reflexivity|]. split; [unfold date_le; simpl; lia|].
    by vm_compute. }
  split; [exact Hwf|].
  destruct (filter_sound_complete scenario electronics_only _ _ Hwf)
    as (Hsub & Heq & _).
  split; [exact Hsub | exact Heq].
Defined.

(** The price bounds are closed: rows 2 and 1 are priced exactly 50 and
    100 and both stay within [50, 100]; row 3, priced 200, does not. *)
Example price_bounds_inclusive :
  sale_id <$> filter_records scenario
    (mkSelection "All" "All" [mkDate 2024 1 1; mkDate 2024 12 31]
                 (dec 50 1) (dec 100 1) "All") = [1%Z; 2%Z].
Proof. reflexivity. Qed.

(** C7.  Filtering is idempotent: filtering the filtered frame again with
    the same constraint set changes nothing. *)
Theorem filter_idempotent (df : list Sale) (sel : Selection) :
  filter_records (filter_records df sel) sel = filter_records df sel.
Proof.
  rewrite !filter_records_keeps, filter_and.
  apply filter_ext. intros r _. tauto.
Qed.

(** C6.  Monotonicity: when one range constraint (dates or prices) is
    widened and nothing else changes, the filtered frame does not get
    shorter. *)
Theorem filter_monotone (df : list Sale) (c1 c2 : Selection) :
  widens c1 c2 →
  length (filter_records df c1) ≤ length (filter_records df c2).
Proof.
  intros Hw. rewrite !filter_records_keeps.
  apply sublist_length, filter_weaken.
  intros r. destruct Hw as [cat reg lo hi lo' hi' pmin pmax ret Hlo Hhi
                           |cat reg ds pmin pmax pmin' pmax' ret Hlo Hhi];
    unfold keeps; simpl; intros (Hc & Hg & Hd & [Hp1 Hp2] & Hs);
    repeat split; try done.
  - by etrans; [exact Hlo | apply Hd].
  - by etrans; [apply Hd | exact Hhi].
  - by eapply Qcle_trans.
  - by eapply Qcle_trans.
Qed.

Lemma filter_monotone_witness :
  widens (mkSelection "All" "All" [mkDate 2024 1 6; mkDate 2024 1 31]
                      (dec 0 1) (dec 500 1) "All")
         any_date_price ∧
  length (filter_records scenario
            (mkSelection "All" "All" [mkDate 2024 1 6; mkDate 2024 1 31]
                         (dec 0 1) (dec 500 1) "All"))
  ≤ length (filter_records scenario any_date_price).
Proof.
  assert (widens (mkSelection "All" "All" [mkDate 2024 1 6; mkDate 2024 1 31]
                              (dec 0 1) (dec 500 1) "All")
                 any_date_price) as Hw.
  { apply widen_dates; unfold date_le; simpl; lia. }
  split; [exact Hw | exact (filter_monotone scenario _ _ Hw)].
Defined.

(** C4.  A degenerate date range [D, D], with the other selectors on
    ['All'] and a price range that covers every row, keeps exactly the rows
    dated [D], in their original order: it is a constraint, not the absence
    of one. *)
Theorem degenerate_date_range (df : list Sale) (D : Date) (pmin pmax : Qc) :
  (∀ r, r ∈ df → (pmin ≤ price r)%Qc ∧ (price r ≤ pmax)%Qc) →
  filter_records df (mkSelection "All" "All" [D; D] pmin pmax "All")
  = filter (λ r, date r = D) df.
Proof.
  intros Hp. rewrite filter_records_keeps.
  apply filter_ext. intros r Hr. unfold keeps. simpl. split.
  - intros (_ & _ & [H1 H2] & _). by apply date_le_antisym.
  - intros ->. repeat split; try done; try apply date_le_refl;
      by apply Hp.
Qed.

Lemma degenerate_date_range_witness :
  (∀ r, r ∈ scenario → (dec 0 1 ≤ price r)%Qc ∧ (price r ≤ dec 500 1)%Qc) ∧
  filter_records scenario
    (mkSelection "All" "All" [mkDate 2024 1 10; mkDate 2024 1 10]
                 (dec 0 1) (dec 500 1) "All")
  = filter (λ r, date r = mkDate 2024 1 10) scenario ∧
  filter (λ r, date r = mkDate 2024 1 10) scenario = [sale2].
Proof.
  assert (∀ r, r ∈ scenario →
            (dec 0 1 ≤ price r)%Qc ∧ (price r ≤ dec 500 1)%Qc) as Hp.
  { intros r Hr. unfold scenario in Hr.
    repeat (apply elem_of_cons in Hr as [->|Hr]); [..|by inversion Hr];
      by vm_compute. }
  split; [exact Hp|]. split; [|reflexivity].
  exact (degenerate_date_range scenario (mkDate 2024 1 10) _ _ Hp).
Defined.

(** ** Malformed date input *)

Lemma apply_filters_rows df sb min_date max_date :
  min_date_of df = Some min_date → max_date_of df = Some max_date →
  apply_filters df sb
  = Some (filter_records df
            (selection_with sb
               (normalize_date_range min_date max_date (date_input sb)))).
Proof.
  intros Hmin Hmax. unfold apply_filters. rewrite Hmin, Hmax. simpl.
  unfold selection_with. by destruct (price_slider sb).
Qed.

Lemma date_bounds_of_rows df :
  df ≠ [] → ∃ lo hi, min_date_of df = Some lo ∧ max_date_of df = Some hi.
Proof.
  destruct df as [|r df]; [done|]. intros _.
  unfold min_date_of, max_date_of. simpl. eauto.
Qed.

(** C5.  A date input with a single bound [D] is normalized to the one-day
    range [D, D], whatever the bounds of the frame: the filter then runs with
    that range, so on every frame the result is the one of the well-formed
    degenerate range, it holds rows dated [D] only (the date filter is not
    dropped), and [apply_filters] returns it on every frame that has rows. *)
Theorem single_bound_normalized (df : list Sale) (sb : Sidebar) (D : Date) :
  single_bound (date_input sb) D →
  (∀ min_date max_date,
     normalize_date_range min_date max_date (date_input sb) = [D; D]) ∧
  (∀ min_date max_date,
     filter_records df
       (selection_with sb
          (normalize_date_range min_date max_date (date_input sb)))
     = filter_records df (selection_with sb [D; D])) ∧
  (∀ r, r ∈ filter_records df (selection_with sb [D; D]) → date r = D) ∧
  (df ≠ [] →
   apply_filters df sb = Some (filter_records df (selection_with sb [D; D]))).
Proof.
  intros Hin.
  assert (∀ mn mx, normalize_date_range mn mx (date_input sb) = [D; D])
    as Hnorm.
  { intros mn mx. by destruct Hin as [-> | ->]. }
  split; [exact Hnorm|]. split; [|split].
  - intros mn mx. by rewrite Hnorm.
  - intros r. rewrite filter_records_keeps.
    intros Hr. apply list_elem_of_filter in Hr as [Hk _].
    destruct Hk as (_ & _ & [H1 H2] & _). by apply date_le_antisym.
  - intros Hne. destruct (date_bounds_of_rows df Hne) as (lo & hi & Hlo & Hhi).
    by rewrite (apply_filters_rows df sb lo hi Hlo Hhi), Hnorm.
Qed.

Lemma single_bound_normalized_witness :
  single_bound (DateOne (mkDate 2024 1 10)) (mkDate 2024 1 10) ∧
  apply_filters scenario
    (mkSidebar "All" "All" (DateOne (mkDate 2024 1 10))
               (dec 0 1, dec 500 1) "All")
  = Some (filter_records scenario
            (mkSelection "All" "All" [mkDate 2024 1 10; mkDate 2024 1 10]
                         (dec 0 1) (dec 500 1) "All")).
Proof.
  split; [by right|].
  refine (proj2 (proj2 (proj2
    (single_bound_normalized scenario
       (mkSidebar "All" "All" (DateOne (mkDate 2024 1 10))
                  (dec 0 1, dec 500 1) "All")
       (mkDate 2024 1 10) _))) _); [by right | done].
Defined.

(** ** The permissive constraint set *)

Section ExtremaFacts.
Context {A : Type} (le : relation A) `{!RelDecision le}
        `{!PreOrder le} `{!Total le}.

Lemma foldl_min_lower (xs : list A) (x : A) :
  let m := foldl (λ m y, if decide (le y m) then y else m) x xs in
  le m x ∧ ∀ y, y ∈ xs → le m y.
Proof.
  revert x. induction xs as [|z xs IH]; intros x; simpl.
  - split; [done|]. intros y Hy. by inversion Hy.
  - destruct (decide (le z x)) as [Hzx|Hzx].
    + destruct (IH z) as [H1 H2]. split; [by etrans|].
      intros y Hy. apply elem_of_cons in Hy as [->|Hy]; auto.
    + destruct (IH x) as [H1 H2]. split; [done|].
      intros y Hy. apply elem_of_cons in Hy as [->|Hy]; [|auto].
      etrans; [exact H1|]. by destruct (total le x z).
Qed.

Lemma foldl_max_upper (xs : list A) (x : A) :
  let m := foldl (λ m y, if decide (le m y) then y else m) x xs in
  le x m ∧ ∀ y, y ∈ xs → le y m.
Proof.
  revert x. induction xs as [|z xs IH]; intros x; simpl.
  - split; [done|]. intros y Hy. by inversion Hy.
  - destruct (decide (le x z)) as [Hxz|Hxz].
    + destruct (IH z) as [H1 H2]. split; [by etrans|].
      intros y Hy. apply elem_of_cons in Hy as [->|Hy]; auto.
    + destruct (IH x) as [H1 H2]. split; [done|].
      intros y Hy. apply elem_of_cons in Hy as [->|Hy]; [|auto].
      etrans; [|exact H1]. by destruct (total le x z).
Qed.

Lemma series_min_lower (l : list A) (m : A) :
  series_min le l = Some m → ∀ y, y ∈ l → le m y.
Proof.
  destruct l as [|x xs]; [done|]. simpl. intros [= <-] y Hy.
  destruct (foldl_min_lower xs x) as [H1 H2].
  apply elem_of_cons in Hy as [->|Hy]; auto.
Qed.

Lemma series_max_upper (l : list A) (m : A) :
  series_max le l = Some m → ∀ y, y ∈ l → le y m.
Proof.
  destruct l as [|x xs]; [done|]. simpl. intros [= <-] y Hy.
  destruct (foldl_max_upper xs x) as [H1 H2].
  apply elem_of_cons in Hy as [->|Hy]; auto.
Qed.
End ExtremaFacts.

(** C10.  On a frame with rows the widgets' initial state is defined -
    ['All'] in the three select boxes, the date range from the earliest to
    the latest date of the frame, the price range from its lowest to its
    highest price - and filtering with it returns the frame unchanged. *)
Theorem default_selection_identity (df : list Sale) :
  df ≠ [] →
  ∃ lo hi pmin pmax,
    min_date_of df = Some lo ∧ max_date_of df = Some hi ∧
    min_price_of df = Some pmin ∧ max_price_of df = Some pmax ∧
    default_selection df
    = Some (mkSelection "All" "All" [lo; hi] pmin pmax "All") ∧
    filter_records df (mkSelection "All" "All" [lo; hi] pmin pmax "All") = df.
Proof.
  intros Hne.
  destruct (date_bounds_of_rows df Hne) as (lo & hi & Hlo & Hhi).
  assert (∃ pmin pmax,
            min_price_of df = Some pmin ∧ max_price_of df = Some pmax)
    as (pmin & pmax & Hpmin & Hpmax).
  { destruct df as [|r df]; [done|].
    unfold min_price_of, max_price_of. simpl. eauto. }
  exists lo, hi, pmin, pmax. repeat (split; [done|]). split.
  - unfold default_selection. by rewrite Hlo, Hhi, Hpmin, Hpmax.
  - rewrite filter_records_keeps. apply filter_all.
    intros r Hr. unfold keeps. simpl.
    assert (date r ∈ date <$> df) as Hd by by apply list_elem_of_fmap_2.
    assert (price r ∈ price <$> df) as Hp by by apply list_elem_of_fmap_2.
    repeat split; try done.
    + by apply (series_min_lower date_le _ _ Hlo).
    + by apply (series_max_upper date_le _ _ Hhi).
    + by apply (series_min_lower Qcle _ _ Hpmin).
    + by apply (series_max_upper Qcle _ _ Hpmax).
Qed.

Lemma default_selection_identity_witness :
  scenario ≠ [] ∧
  ∃ lo hi pmin pmax,
    min_date_of scenario = Some lo ∧ max_date_of scenario = Some hi ∧
    min_price_of scenario = Some pmin ∧ max_price_of scenario = Some pmax ∧
    default_selection scenario
    = Some (mkSelection "All" "All" [lo; hi] pmin pmax "All") ∧
    filter_records scenario
      (mkSelection "All" "All" [lo; hi] pmin pmax "All") = scenario.
Proof.
  split; [done|]. apply default_selection_identity. done.
Defined.

(** ** The KPI bundle *)

Lemma sum_returned (df : list Sale) :
  sum_Z ((λ r, Z.b2z (returned r)) <$> df) = count_returned df.
Proof.
  unfold count_returned. induction df as [|r df IH]; [done|].
  rewrite fmap_cons, filter_cons.
  change (sum_Z (?x :: ?l)) with (x + sum_Z l)%Z. rewrite IH.
  destruct (decide (returned r = true)) as [Hr|Hr].
  - rewrite Hr. simpl length. simpl Z.b2z. lia.
  - apply not_true_is_false in Hr. rewrite Hr. simpl Z.b2z. lia.
Qed.

(** C2.  On the frame without rows [calculate_kpis] returns the bundle
    whose six entries are all 0: the guard of line 145 answers before any
    mean or rate is taken. *)
Theorem calculate_kpis_empty :
  calculate_kpis []
  = {| total_sales := 0; total_revenue := 0; avg_order_value := 0;
       return_rate := 0; avg_discount := 0; total_quantity := 0 |}.
Proof. reflexivity. Qed.

(** The scenario of the specification: no row is priced within [0, 40],
    and the bundle of the empty view is the zero bundle. *)
Example price_0_40_scenario :
  filter_records scenario
    (mkSelection "All" "All" [mkDate 2024 1 1; mkDate 2024 12 31]
                 (dec 0 1) (dec 40 1) "All") = [] ∧
  calculate_kpis
    (filter_records scenario
       (mkSelection "All" "All" [mkDate 2024 1 1; mkDate 2024 12 31]
                    (dec 0 1) (dec 40 1) "All")) = zero_kpis.
Proof. split; reflexivity. Qed.

(** ** Grouped roll-ups *)



Section GroupSums.
Context {K : Type} `{!EqDecision K}.
Implicit Types (ks : list K) (df : list Sale).






End GroupSums.

(** ** Revenue by region on the scenario *)

Lemma scenario_revenues :
  revenue <$> scenario = [dec 180 1; dec 50 1; dec 160 1].
Proof.
  vm_compute. repeat (f_equal; try (apply Qc_is_canon; by vm_compute)).
Qed.

Lemma rev_by_region_rows :
  rev_by_region scenario
  = [("East", dec 160 1); ("North", dec 180 1); ("South", dec 50 1)].
Proof.
  vm_compute. repeat (f_equal; try (apply Qc_is_canon; by vm_compute)).
Qed.

Lemma sunburst_data_rows :
  sunburst_data scenario
  = [(("East", "Electronics"), dec 160 1);
     (("North", "Electronics"), dec 180 1);
     (("South", "Clothing"), dec 50 1)].
Proof.
  vm_compute. repeat (f_equal; try (apply Qc_is_canon; by vm_compute)).
Qed.

(** C8, as stated, fails: the row of region South has price 50, quantity 1
    and discount 0, so its stored revenue is 50 and the roll-up cannot hold
    the entry South: 45. *)
Lemma south_revenue_is_not_45 :
  ¬ (rev_by_region scenario
     ≡ₚ [("North", dec 180 1); ("South", dec 45 1); ("East", dec 160 1)]).
Proof.
  intros Hp.
  assert (("South", dec 45 1) ∈ rev_by_region scenario) as Hin.
  { rewrite Hp. right. left. }
  rewrite rev_by_region_rows in Hin.
  repeat (apply elem_of_cons in Hin as [Heq|Hin]; [by inversion Heq|]).
  by inversion Hin.
Qed.

(** C8, amended.  With the revenue of each row fixed at construction as
    price * quantity * (1 - discount), the revenues of the scenario are 180,
    50 and 160; grouping by region with the sum of the revenue gives North:
    180, South: 50, East: 160, in some order, and the (region, category)
    roll-up of line 497 has the same three aggregates. *)
Theorem rev_by_region_scenario :
  revenue <$> scenario = [dec 180 1; dec 50 1; dec 160 1] ∧
  rev_by_region scenario
  ≡ₚ [("North", dec 180 1); ("South", dec 50 1); ("East", dec 160 1)] ∧
  sunburst_data scenario
  ≡ₚ [(("North", "Electronics"), dec 180 1);
      (("South", "Clothing"), dec 50 1);
      (("East", "Electronics"), dec 160 1)].
Proof.
  split; [exact scenario_revenues|]. split.
  - rewrite rev_by_region_rows. apply Permutation_cons_append.
  - rewrite sunburst_data_rows. apply Permutation_cons_append.
Qed.


(** ** More on the filter engine *)

Lemma filter_none {A : Type} (P : A → Prop) `{!∀ x, Decision (P x)}
    (l : list A) :
  (∀ x, x ∈ l → ¬ P x) → filter P l = [].
Proof.
  induction l as [|x l IH]; intros HP; [done|].
  rewrite filter_cons_False by (apply HP; left).
  apply IH. intros y Hy. apply HP. by right.
Qed.

Lemma default_selection_bounds df lo hi pmin pmax :
  default_selection df = Some (mkSelection "All" "All" [lo; hi] pmin pmax "All") →
  min_date_of df = Some lo ∧ max_date_of df = Some hi ∧
  min_price_of df = Some pmin ∧ max_price_of df = Some pmax.
Proof.
  unfold default_selection.
  destruct (min_date_of df) as [a|]; [|done].
  destruct (max_date_of df) as [b|]; [|done].
  destruct (min_price_of df) as [c|]; [|done].
  destruct (max_price_of df) as [d|]; [|done].
  simpl. by intros [= -> -> -> ->].
Qed.

Lemma row_within_bounds df lo hi pmin pmax r :
  min_date_of df = Some lo → max_date_of df = Some hi →
  min_price_of df = Some pmin → max_price_of df = Some pmax →
  r ∈ df →
  (date_le lo (date r) ∧ date_le (date r) hi) ∧
  ((pmin ≤ price r)%Qc ∧ (price r ≤ pmax)%Qc).
Proof.
  intros Hlo Hhi Hpmin Hpmax Hr.
  assert (date r ∈ date <$> df) as Hd by by apply list_elem_of_fmap_2.
  assert (price r ∈ price <$> df) as Hp by by apply list_elem_of_fmap_2.
  repeat split.
  - by apply (series_min_lower date_le _ _ Hlo).
  - by apply (series_max_upper date_le _ _ Hhi).
  - by apply (series_min_lower Qcle _ _ Hpmin).
  - by apply (series_max_upper Qcle _ _ Hpmax).
Qed.

(** X1.  Two selections applied one after the other give the rows that both
    keep, in either order: filters compose as a conjunction and commute. *)
Theorem filter_compose (df : list Sale) (a b : Selection) :
  filter_records (filter_records df a) b
  = filter (λ r, keeps a r ∧ keeps b r) df ∧
  filter_records (filter_records df a) b
  = filter_records (filter_records df b) a.
Proof.
  rewrite !filter_records_keeps, !filter_and. split; [done|].
  apply filter_ext. intros r _. tauto.
Qed.

(** X2.  A date input that comes back empty, or that raises, leaves the dates
    unrestricted: on a frame with rows [apply_filters] returns every row
    that passes the category, region, price and return masks, whatever its
    date. *)
Theorem date_input_empty_or_raised (df : list Sale) (sb : Sidebar) :
  df ≠ [] →
  date_input sb = DateSeq [] ∨ date_input sb = DateRaised →
  apply_filters df sb = Some (filter (passes_other_masks sb) df).
Proof.
  intros Hne Hin.
  destruct (date_bounds_of_rows df Hne) as (lo & hi & Hlo & Hhi).
  rewrite (apply_filters_rows df sb lo hi Hlo Hhi), filter_records_keeps.
  f_equal. apply filter_ext. intros r Hr.
  unfold keeps, passes_other_masks, selection_with. simpl.
  destruct Hin as [-> | ->]; simpl; [tauto|].
  assert (date r ∈ date <$> df) as Hd by by apply list_elem_of_fmap_2.
  pose proof (series_min_lower date_le _ _ Hlo _ Hd).
  pose proof (series_max_upper date_le _ _ Hhi _ Hd).
  tauto.
Qed.

Lemma date_input_empty_or_raised_witness :
  apply_filters scenario
    (mkSidebar "Electronics" "All" (DateSeq []) (dec 0 1, dec 500 1) "All")
  = Some [sale1; sale3].
Proof.
  rewrite (date_input_empty_or_raised scenario
             (mkSidebar "Electronics" "All" (DateSeq [])
                        (dec 0 1, dec 500 1) "All"));
    [reflexivity | done | by left].
Defined.

(** X3.  A date range whose first bound is after the second, or a price range
    whose lower bound is above the upper one, keeps no row; the KPI bundle
    of the result is the zero bundle. *)
Theorem inverted_range_empty (df : list Sale) (sel : Selection) :
  (∃ d0 d1 rest, date_range sel = d0 :: d1 :: rest ∧ ¬ date_le d0 d1) ∨
  (max_price sel < min_price sel)%Qc →
  filter_records df sel = [] ∧
  calculate_kpis (filter_records df sel) = zero_kpis.
Proof.
  intros Hinv.
  assert (filter_records df sel = []) as ->; [|done].
  rewrite filter_records_keeps. apply filter_none.
  intros r _ (_ & _ & Hd & [Hp1 Hp2] & _).
  destruct Hinv as [(d0 & d1 & rest & Hds & Hn) | Hlt].
  - rewrite Hds in Hd. simpl in Hd. destruct Hd as [H1 H2].
    apply Hn. by etrans.
  - apply (Qclt_not_le _ _ Hlt). by eapply Qcle_trans.
Qed.

Lemma inverted_range_empty_witness :
  filter_records scenario
    (mkSelection "All" "All" [mkDate 2024 2 1; mkDate 2024 1 1]
                 (dec 0 1) (dec 500 1) "All") = [] ∧
  calculate_kpis
    (filter_records scenario
       (mkSelection "All" "All" [mkDate 2024 2 1; mkDate 2024 1 1]
                    (dec 0 1) (dec 500 1) "All")) = zero_kpis.
Proof.
  apply inverted_range_empty. left.
  exists (mkDate 2024 2 1), (mkDate 2024 1 1), [].
  split; [done|]. unfold date_le. simpl. lia.
Defined.

(** X4.  The return-status box splits the view: with the other widgets fixed,
    the rows shown under ['Returned'] and under ['Not Returned'] are
    together the rows shown under ['All'], each once. *)
Theorem return_status_partition (df : list Sale) (sel : Selection) :
  filter_records df (with_return sel "Returned")
    ++ filter_records df (with_return sel "Not Returned")
  ≡ₚ filter_records df (with_return sel "All") ∧
  length (filter_records df (with_return sel "Returned"))
    + length (filter_records df (with_return sel "Not Returned"))
  = length (filter_records df (with_return sel "All")).
Proof.
  assert (filter_records df (with_return sel "Returned")
            ++ filter_records df (with_return sel "Not Returned")
          ≡ₚ filter_records df (with_return sel "All")) as Hp.
  { rewrite <-(filter_app_complement (λ r, returned r = true)
                 (filter_records df (with_return sel "All"))).
    rewrite !filter_records_keeps, !filter_and.
    f_equiv.
    - apply reflexive_eq, filter_ext. intros r _.
      unfold keeps, return_status. simpl. destruct (returned r); intuition congruence.
    - apply reflexive_eq, filter_ext. intros r _.
      unfold keeps, return_status. simpl. destruct (returned r); intuition congruence. }
  split; [exact Hp|]. by rewrite <-Hp, length_app.
Qed.

(** X5.  With the other widgets in their initial state, choosing a category
    [c] shows exactly the rows of that category, and the choices offered by
    the box are exactly those that show at least one row; the same holds
    for the region box. *)
Theorem offered_options_select_rows (df : list Sale) (c g : string)
    (lo hi : Date) (pmin pmax : Qc) :
  default_selection df
  = Some (mkSelection "All" "All" [lo; hi] pmin pmax "All") →
  c ≠ "All" → g ≠ "All" →
  (filter_records df (mkSelection c "All" [lo; hi] pmin pmax "All")
   = filter (λ r, category r = c) df ∧
   (c ∈ category_options df ↔
    filter_records df (mkSelection c "All" [lo; hi] pmin pmax "All") ≠ [])) ∧
  (filter_records df (mkSelection "All" g [lo; hi] pmin pmax "All")
   = filter (λ r, region r = g) df ∧
   (g ∈ region_options df ↔
    filter_records df (mkSelection "All" g [lo; hi] pmin pmax "All") ≠ [])).
Proof.
  intros (Hlo & Hhi & Hpmin & Hpmax)%default_selection_bounds Hc Hg.
  assert (∀ (col : Sale → string) (v : string),
            v ≠ "All" →
            v ∈ "All" :: merge_sort str_le (remove_dups (col <$> df)) ↔
            filter (λ r, col r = v) df ≠ []) as Hopt.
  { intros col v Hv. rewrite elem_of_cons, merge_sort_Permutation,
      elem_of_remove_dups, list_elem_of_fmap. split.
    - intros [?|(r & -> & Hr)]; [done|]. intros Hnil.
      by apply (filter_nil_not_elem_of _ _ r) in Hnil.
    - intros Hnn. right.
      destruct (filter (λ r, col r = v) df) as [|r l] eqn:Hf; [done|].
      assert (r ∈ filter (λ r, col r = v) df) as Hr by (rewrite Hf; left).
      apply list_elem_of_filter in Hr as [Hv' Hr]. eauto. }
  split.
  - assert (filter_records df (mkSelection c "All" [lo; hi] pmin pmax "All")
            = filter (λ r, category r = c) df) as ->.
    { rewrite filter_records_keeps. apply filter_ext. intros r Hr.
      pose proof (row_within_bounds df lo hi pmin pmax r
                    Hlo Hhi Hpmin Hpmax Hr).
      unfold keeps. simpl. tauto. }
    split; [done|]. by apply (Hopt category).
  - assert (filter_records df (mkSelection "All" g [lo; hi] pmin pmax "All")
            = filter (λ r, region r = g) df) as ->.
    { rewrite filter_records_keeps. apply filter_ext. intros r Hr.
      pose proof (row_within_bounds df lo hi pmin pmax r
                    Hlo Hhi Hpmin Hpmax Hr).
      unfold keeps. simpl. tauto. }
    split; [done|]. by apply (Hopt region).
Qed.

Lemma offered_options_select_rows_witness :
  default_selection scenario
  = Some (mkSelection "All" "All" [mkDate 2024 1 5; mkDate 2024 2 1]
                      (dec 50 1) (dec 200 1) "All") ∧
  ("Clothing" ∈ category_options scenario ↔
   filter_records scenario
     (mkSelection "Clothing" "All" [mkDate 2024 1 5; mkDate 2024 2 1]
                  (dec 50 1) (dec 200 1) "All") ≠ []).
Proof.
  split; [reflexivity|].
  apply (offered_options_select_rows scenario "Clothing" "East"
           (mkDate 2024 1 5) (mkDate 2024 2 1) (dec 50 1) (dec 200 1));
    [reflexivity | done | done].
Defined.

(** ** More on the KPI bundle *)

Lemma len_pos df : df ≠ [] → (0 < len df)%Z.
Proof. destruct df; [done|]. unfold len. simpl. lia. Qed.

Lemma Qc_of_len_pos df : df ≠ [] → (0 < Qc_of_Z (len df))%Qc.
Proof.
  intros Hne.
  assert (Qc_of_Z 0 < Qc_of_Z (len df))%Qc as H
    by (apply (proj1 (Z2Qc_inj_lt 0 (len df))); by apply len_pos).
  by rewrite Z2Qc_inj_0 in H.
Qed.

Lemma calculate_kpis_rows df :
  df ≠ [] →
  calculate_kpis df
  = {| total_sales := len df;
       total_revenue := sum_Qc (revenue <$> df);
       avg_order_value := mean_Qc (revenue <$> df);
       return_rate :=
         (Qc_of_Z (sum_Z ((λ r, Z.b2z (returned r)) <$> df))
          / Qc_of_Z (len df) * Qc_of_Z 100)%Qc;
       avg_discount := (mean_Qc (discount <$> df) * Qc_of_Z 100)%Qc;
       total_quantity := sum_Z (quantity <$> df) |}.
Proof.
  intros Hne. unfold calculate_kpis.
  rewrite decide_False; [done|]. pose proof (len_pos df Hne). lia.
Qed.

Lemma calculate_kpis_totals df :
  total_sales (calculate_kpis df) = len df ∧
  total_revenue (calculate_kpis df) = sum_Qc (revenue <$> df) ∧
  total_quantity (calculate_kpis df) = sum_Z (quantity <$> df).
Proof.
  destruct df as [|r df]; [done|]. by rewrite calculate_kpis_rows.
Qed.

Lemma count_returned_bounds df : (0 ≤ count_returned df ≤ len df)%Z.
Proof.
  unfold count_returned, len.
  pose proof (length_filter (λ r, returned r = true) df). lia.
Qed.

Lemma Qcdiv_mult_cancel (x n : Qc) : n ≠ 0%Qc → (x / n * n)%Qc = x.
Proof.
  intros Hn. unfold Qcdiv.
  by rewrite <-Qcmult_assoc, Qcmult_inv_l, Qcmult_1_r.
Qed.

Lemma Qcdiv_bounds (a x b n : Qc) :
  (0 < n)%Qc → (n * a ≤ x)%Qc → (x ≤ n * b)%Qc →
  (a ≤ x / n)%Qc ∧ (x / n ≤ b)%Qc.
Proof.
  intros Hn Ha Hb.
  assert (n ≠ 0%Qc) as Hn0 by (intros ->; by apply (Qclt_not_eq 0 0)).
  split.
  - apply (Qcmult_le_mono_pos_r _ _ n Hn).
    by rewrite Qcdiv_mult_cancel, Qcmult_comm.
  - apply (Qcmult_le_mono_pos_r _ _ n Hn).
    by rewrite Qcdiv_mult_cancel, (Qcmult_comm b).
Qed.

(** X6.  The return rate is a percentage: it lies between 0 and 100 on every
    frame. *)
Theorem return_rate_bounds (df : list Sale) :
  (0 ≤ return_rate (calculate_kpis df))%Qc ∧
  (return_rate (calculate_kpis df) ≤ Qc_of_Z 100)%Qc.
Proof.
  destruct (decide (df = [])) as [->|Hne]; [by vm_compute|].
  rewrite calculate_kpis_rows by done. simpl.
  rewrite sum_returned.
  destruct (count_returned_bounds df) as [H0 Hn].
  destruct (Qcdiv_bounds 0 (Qc_of_Z (count_returned df)) 1
              (Qc_of_Z (len df))) as [Hlo Hhi].
  - by apply Qc_of_len_pos.
  - rewrite Qcmult_0_r, <-Z2Qc_inj_0.
    by apply (proj1 (Z2Qc_inj_le 0 (count_returned df))).
  - rewrite Qcmult_1_r.
    by apply (proj1 (Z2Qc_inj_le (count_returned df) (len df))).
  - assert (0 ≤ Qc_of_Z 100)%Qc as H100 by by vm_compute.
    split.
    + by apply Qcmult_nonneg_nonneg.
    + rewrite <-(Qcmult_1_l (Qc_of_Z 100)) at 2.
      by apply Qcmult_le_mono_nonneg_r.
Qed.

Lemma scenario_rows (P : Sale → Prop) :
  P sale1 → P sale2 → P sale3 → ∀ r, r ∈ scenario → P r.
Proof.
  intros H1 H2 H3 r Hr. unfold scenario in Hr.
  repeat (apply elem_of_cons in Hr as [->|Hr]; [done|]).
  by inversion Hr.
Qed.

(** ** More on the grouped roll-ups *)

#[global] Instance str_le_total : Total str_le.
Proof.
  intros a b. unfold str_le.
  destruct (String.leb_total a b) as [-> | ->]; [by left | by right].
Qed.

#[global] Instance value_ge_total {K : Type} : Total (@value_ge K).
Proof. intros a b. unfold value_ge. apply (total Qcle). Qed.

#[global] Instance value_ge_trans {K : Type} : Transitive (@value_ge K).
Proof. intros a b c. unfold value_ge. intros H1 H2. by eapply Qcle_trans. Qed.

#[global] Instance count_ge_total {K : Type} : Total (@count_ge K).
Proof. intros a b. unfold count_ge. lia. Qed.

#[global] Instance count_ge_trans {K : Type} : Transitive (@count_ge K).
Proof. intros a b c. unfold count_ge. lia. Qed.

Section FoldGroups.
Context {A : Type} (add : A → A → A) (zero : A)
        `{!Assoc (=) add} `{!Comm (=) add} `{!LeftId (=) zero add}.
Context {K : Type} `{!EqDecision K}.
Implicit Types (ks : list K) (df : list Sale).

Lemma fold_perm (l1 l2 : list A) :
  l1 ≡ₚ l2 → foldr add zero l1 = foldr add zero l2.
Proof.
  induction 1 as [|x l1 l2 _ IH|x y l|l1 l2 l3 _ IH1 _ IH2]; simpl.
  - done.
  - by rewrite IH.
  - by rewrite !(assoc add), (comm add x y).
  - by etrans.
Qed.

Lemma fold_zero ks : foldr add zero ((λ _, zero) <$> ks) = zero.
Proof.
  induction ks as [|k ks IH]; [done|].
  rewrite fmap_cons. simpl. by rewrite IH, (left_id zero add).
Qed.

Lemma fold_plus (f g : K → A) ks :
  foldr add zero ((λ k, add (f k) (g k)) <$> ks)
  = add (foldr add zero (f <$> ks)) (foldr add zero (g <$> ks)).
Proof.
  induction ks as [|k ks IH].
  - simpl. by rewrite (left_id zero add).
  - rewrite !fmap_cons. simpl. rewrite IH.
    rewrite <-!(assoc add). f_equal.
    rewrite !(assoc add). f_equal. apply (comm add).
Qed.

Lemma fold_ext (f g : K → A) ks :
  (∀ k, k ∈ ks → f k = g k) →
  foldr add zero (f <$> ks) = foldr add zero (g <$> ks).
Proof.
  induction ks as [|k ks IH]; intros Hfg; [done|].
  rewrite !fmap_cons. simpl.
  rewrite Hfg by left. rewrite IH; [done|].
  intros k' Hk'. apply Hfg. by right.
Qed.

Lemma fold_only (k0 : K) (v : A) ks :
  NoDup ks →
  foldr add zero ((λ k, if decide (k0 = k) then v else zero) <$> ks)
  = if decide (k0 ∈ ks) then v else zero.
Proof.
  induction 1 as [|k ks Hk Hnd IH]; [done|].
  rewrite fmap_cons. simpl. rewrite IH.
  destruct (decide (k0 = k)) as [->|Hne].
  - rewrite decide_False by done.
    rewrite decide_True by left. by rewrite (comm add), (left_id zero add).
  - rewrite (left_id zero add).
    destruct (decide (k0 ∈ ks)) as [Hin|Hin].
    + by rewrite decide_True by by right.
    + rewrite decide_False; [done|].
      intros [?|?]%elem_of_cons; done.
Qed.

(** The groups of a duplicate-free list of keys that holds the key of
    every row split the frame: the aggregates of the groups add up to the
    aggregate of the column. *)
Lemma fold_groups (key : Sale → K) (col : Sale → A) ks df :
  NoDup ks → (∀ r, r ∈ df → key r ∈ ks) →
  foldr add zero ((λ k, foldr add zero (col <$> group_rows key k df)) <$> ks)
  = foldr add zero (col <$> df).
Proof.
  intros Hnd. induction df as [|r df IH]; intros Hks.
  - simpl. apply fold_zero.
  - rewrite (fold_ext _
      (λ k, add (if decide (key r = k) then col r else zero)
                (foldr add zero (col <$> group_rows key k df)))).
    + rewrite fold_plus, fold_only by done.
      rewrite decide_True by (apply Hks; left).
      rewrite IH by (intros r' Hr'; apply Hks; by right).
      done.
    + intros k _. unfold group_rows. rewrite filter_cons.
      destruct (decide (key r = k)).
      * by rewrite fmap_cons.
      * by rewrite (left_id zero add).
Qed.

Lemma fold_group_keys (key_le : relation K) `{!RelDecision key_le}
    (key : Sale → K) (col : Sale → A) df :
  foldr add zero
    ((λ k, foldr add zero (col <$> group_rows key k df))
       <$> group_keys key_le key df)
  = foldr add zero (col <$> df).
Proof.
  unfold group_keys.
  rewrite (fold_perm _
    ((λ k, foldr add zero (col <$> group_rows key k df))
       <$> remove_dups (key <$> df))).
  - apply fold_groups; [apply NoDup_remove_dups|].
    intros r Hr. apply elem_of_remove_dups. by apply list_elem_of_fmap_2.
  - apply fmap_Permutation, merge_sort_Permutation.
Qed.
End FoldGroups.

Section GroupKeys.
Context {K : Type} `{!EqDecision K} (key_le : relation K)
        `{!RelDecision key_le}.
Implicit Types (key : Sale → K) (df : list Sale).

Lemma group_keys_NoDup key df : NoDup (group_keys key_le key df).
Proof.
  unfold group_keys. rewrite merge_sort_Permutation. apply NoDup_remove_dups.
Qed.

Lemma elem_of_group_keys key df k :
  k ∈ group_keys key_le key df ↔ ∃ r, r ∈ df ∧ key r = k.
Proof.
  unfold group_keys.
  rewrite merge_sort_Permutation, elem_of_remove_dups, list_elem_of_fmap.
  split; intros (r & H1 & H2); exists r; by split.
Qed.

Lemma group_rows_nonempty key df k :
  k ∈ group_keys key_le key df → group_rows key k df ≠ [].
Proof.
  intros (r & Hr & Hk)%elem_of_group_keys Hnil.
  exact (filter_nil_not_elem_of (λ r, key r = k) df r Hnil Hk Hr).
Qed.

Lemma group_size_pos key df k :
  k ∈ group_keys key_le key df → (1 ≤ len (group_rows key k df))%Z.
Proof.
  intros Hk%group_rows_nonempty. pose proof (len_pos _ Hk). lia.
Qed.
End GroupKeys.

Lemma len_sum_ones (df : list Sale) : len df = sum_Z ((λ _, 1%Z) <$> df).
Proof.
  unfold len. induction df as [|r df IH]; [done|].
  rewrite fmap_cons.
  change (sum_Z (?x :: ?l)) with (x + sum_Z l)%Z.
  rewrite <-IH. simpl length. lia.
Qed.

Lemma groupby_size_total {K : Type} `{!EqDecision K} (key_le : relation K)
    `{!RelDecision key_le} (key : Sale → K) (df : list Sale) :
  sum_Z ((groupby_size key_le key df).*2) = len df.
Proof.
  unfold groupby_size. rewrite <-list_fmap_compose.
  rewrite (fold_ext Z.add 0%Z _
             (λ k, sum_Z ((λ _, 1%Z) <$> group_rows key k df))).
  - rewrite len_sum_ones. apply (fold_group_keys Z.add 0%Z).
  - intros k _. simpl. apply len_sum_ones.
Qed.

Lemma groupby_sum_keys {K : Type} `{!EqDecision K} (key_le : relation K)
    `{!RelDecision key_le} (key : Sale → K) (col : Sale → Qc) df :
  (groupby_sum key_le key col df).*1 = group_keys key_le key df.
Proof.
  unfold groupby_sum. rewrite <-list_fmap_compose. apply list_fmap_id.
Qed.

(** X10.  The key column of a grouped sum has no duplicate, is in the order of
    the keys, and holds exactly the keys that occur in the frame: every
    row falls into one reported group and no reported group is empty. *)
Theorem groupby_keys {K : Type} `{!EqDecision K} (key_le : relation K)
    `{!RelDecision key_le} `{!Total key_le}
    (key : Sale → K) (col : Sale → Qc) (df : list Sale) :
  NoDup (groupby_sum key_le key col df).*1 ∧
  Sorted key_le (groupby_sum key_le key col df).*1 ∧
  (∀ k, k ∈ (groupby_sum key_le key col df).*1 ↔ ∃ r, r ∈ df ∧ key r = k) ∧
  (∀ k, k ∈ (groupby_sum key_le key col df).*1 → group_rows key k df ≠ []).
Proof.
  rewrite groupby_sum_keys.
  split; [apply group_keys_NoDup|]. split; [apply Sorted_merge_sort, _|].
  split; [apply elem_of_group_keys | apply group_rows_nonempty].
Qed.

Lemma groupby_keys_witness :
  NoDup (monthly_rev scenario).*1 ∧ Sorted str_le (monthly_rev scenario).*1.
Proof.
  destruct (groupby_keys str_le sale_month revenue scenario)
    as (Hnd & Hs & _).
  split; [exact Hnd | exact Hs].
Defined.

(** X11.  The revenue-by-category table is in descending order of revenue, so
    its first row is a best category; it has one row per category of the
    frame, with the revenue of that category's rows. *)
Theorem rev_by_cat_descending (df : list Sale) :
  StronglySorted value_ge (rev_by_cat df) ∧
  rev_by_cat df ≡ₚ groupby_sum str_le category revenue df ∧
  NoDup (rev_by_cat df).*1 ∧
  (∀ c v, (c, v) ∈ rev_by_cat df ↔
     (∃ r, r ∈ df ∧ category r = c) ∧
     v = sum_Qc (revenue <$> filter (λ r, category r = c) df)).
Proof.
  assert (rev_by_cat df ≡ₚ groupby_sum str_le category revenue df) as Hp
    by apply merge_sort_Permutation.
  split; [apply StronglySorted_merge_sort; apply _|]. split; [done|].
  split.
  - rewrite Hp, groupby_sum_keys. apply group_keys_NoDup.
  - intros c v. rewrite Hp. unfold groupby_sum.
    rewrite list_elem_of_fmap. setoid_rewrite elem_of_group_keys.
    unfold group_rows. split.
    + intros (k & [= -> ->] & Hk). eauto.
    + intros [Hk ->]. eauto.
Qed.

(** X12.  The region counts are positive, in descending order, one per region of
    the frame, and they add up to the number of rows. *)
Theorem region_counts_total (df : list Sale) :
  sum_Z (region_counts df).*2 = len df ∧
  Forall (λ p, (1 ≤ p.2)%Z) (region_counts df) ∧
  StronglySorted count_ge (region_counts df) ∧
  NoDup (region_counts df).*1 ∧
  (∀ g, g ∈ (region_counts df).*1 ↔ ∃ r, r ∈ df ∧ region r = g).
Proof.
  assert (region_counts df ≡ₚ groupby_size str_le region df) as Hp
    by apply merge_sort_Permutation.
  assert ((groupby_size str_le region df).*1 = group_keys str_le region df)
    as Hkeys.
  { unfold groupby_size. rewrite <-list_fmap_compose. apply list_fmap_id. }
  split; [|split; [|split; [|split]]].
  - rewrite (fold_perm Z.add 0%Z _ ((groupby_size str_le region df).*2))
      by by apply fmap_Permutation.
    apply groupby_size_total.
  - rewrite Hp. unfold groupby_size. apply Forall_fmap, Forall_forall.
    intros k Hk. simpl. by eapply group_size_pos.
  - apply StronglySorted_merge_sort; apply _.
  - rewrite Hp, Hkeys. apply group_keys_NoDup.
  - intros g. rewrite Hp, Hkeys. apply elem_of_group_keys.
Qed.

(** X13.  The returns-by-category table adds up to the number of returned
    rows of the frame. *)
Theorem return_by_cat_total (df : list Sale) :
  sum_Z (return_by_cat df).*2 = count_returned df.
Proof.
  unfold return_by_cat, sort_counts_desc.
  rewrite (fold_perm Z.add 0%Z _
    ((groupby_sum_Z str_le category (λ r, Z.b2z (returned r)) df).*2))
    by apply fmap_Permutation, merge_sort_Permutation.
  unfold groupby_sum_Z. rewrite <-list_fmap_compose.
  rewrite <-sum_returned. apply (fold_group_keys Z.add 0%Z).
Qed.

Lemma StronglySorted_strict {A : Type} (R : relation A) (l : list A) :
  StronglySorted R l → NoDup l → StronglySorted (λ a b, R a b ∧ a ≠ b) l.
Proof.
  induction 1 as [|x l Hl IH Hx]; intros Hnd; [constructor|].
  apply NoDup_cons in Hnd as [Hxl Hnd].
  constructor; [by apply IH|].
  apply Forall_forall. intros y Hy. split.
  - by eapply Forall_forall in Hx.
  - by intros ->.
Qed.

Lemma StronglySorted_sublist {A : Type} (R : relation A) (l1 l2 : list A) :
  l1 `sublist_of` l2 → StronglySorted R l2 → StronglySorted R l1.
Proof.
  induction 1 as [|x l1 l2 Hsub IH|x l1 l2 Hsub IH]; intros Hs.
  - constructor.
  - apply StronglySorted_inv in Hs as [Hs Hx].
    constructor; [by apply IH|].
    apply Forall_forall. intros y Hy.
    eapply Forall_forall in Hx; [exact Hx|].
    by eapply elem_of_sublist.
  - apply StronglySorted_inv in Hs as [Hs _]. by apply IH.
Qed.

(** X14.  The daily sales table has one row per date of the frame, in strictly
    increasing date order; its counts are positive and add up to the number
    of rows. *)
Theorem daily_sales_chronological (df : list Sale) :
  StronglySorted date_lt (daily_sales df).*1 ∧
  (∀ d, d ∈ (daily_sales df).*1 ↔ ∃ r, r ∈ df ∧ date r = d) ∧
  Forall (λ p, (1 ≤ p.2)%Z) (daily_sales df) ∧
  sum_Z (daily_sales df).*2 = len df.
Proof.
  assert ((daily_sales df).*1 = group_keys date_le date df) as Hkeys.
  { unfold daily_sales, groupby_size.
    rewrite <-list_fmap_compose. apply list_fmap_id. }
  split; [|split; [|split]].
  - rewrite Hkeys. apply StronglySorted_strict; [|apply group_keys_NoDup].
    apply StronglySorted_merge_sort; apply _.
  - intros d. rewrite Hkeys. apply elem_of_group_keys.
  - unfold daily_sales, groupby_size. apply Forall_fmap, Forall_forall.
    intros k Hk. simpl. by eapply group_size_pos.
  - apply groupby_size_total.
Qed.

(** X15.  The category performance table agrees with the rest of the page:
    its returns column adds up to the number of returned rows of the frame,
    its revenue column is the revenue-by-category table, and, when no
    quantity is negative and their sum fits in 64 bits (so that no int64
    sum wraps), its quantity column adds up to the total quantity of the
    KPI bundle. *)
Theorem cat_performance_totals (df : list Sale) :
  ((∀ r, r ∈ df → (0 ≤ quantity r)%Z) →
   (sum_Z (quantity <$> df) < 2 ^ 63)%Z →
   sum_Z (cp_quantity <$> cat_performance df)
   = total_quantity (calculate_kpis df)) ∧
  sum_Z (cp_returned <$> cat_performance df) = count_returned df ∧
  (λ row, (cp_category row, cp_revenue row)) <$> cat_performance df
  ≡ₚ rev_by_cat df.
Proof.
  unfold cat_performance. rewrite <-!list_fmap_compose.
  split; [|split].
  - intros _ _. destruct (calculate_kpis_totals df) as (_ & _ & ->).
    apply (fold_group_keys Z.add 0%Z).
  - rewrite <-sum_returned. apply (fold_group_keys Z.add 0%Z).
  - unfold rev_by_cat, sort_values_desc.
    by rewrite merge_sort_Permutation.
Qed.

Lemma cat_performance_totals_witness :
  sum_Z (cp_quantity <$> cat_performance scenario)
  = total_quantity (calculate_kpis scenario).
Proof.
  refine (proj1 (cat_performance_totals scenario) _ _).
  - apply scenario_rows; simpl; lia.
  - reflexivity.
Defined.

(** ** The generator *)

Lemma StronglySorted_seq (j n : nat) : StronglySorted lt (seq j n).
Proof.
  revert j. induction n as [|n IH]; intros j; [constructor|].
  simpl. constructor; [apply IH|].
  apply Forall_forall. intros k Hk%elem_of_seq. lia.
Qed.

Lemma generated_id_column (draws : list Draw) :
  sale_id <$> generate_sales_data draws
  = (λ i, Z.of_nat i + 1)%Z <$> seq 0 (length draws).
Proof.
  unfold generate_sales_data. rewrite fmap_imap.
  rewrite <-imap_seq_0. by apply imap_ext.
Qed.

(** X18.  For at least one round, the generator numbers the rows 1, 2, ...,
    n in order, one row per round; so in every filtered view the ids are
    strictly increasing, and no two shown rows share an id.  (Without a
    round the source fails on line 66: the frame has no [date] column.) *)
Theorem generated_ids (draws : list Draw) (sel : Selection) :
  draws ≠ [] →
  length (generate_sales_data draws) = length draws ∧
  sale_id <$> generate_sales_data draws
  = (λ i, Z.of_nat i + 1)%Z <$> seq 0 (length draws) ∧
  StronglySorted Z.lt
    (sale_id <$> filter_records (generate_sales_data draws) sel).
Proof.
  intros _.
  split; [apply length_imap|]. split; [apply generated_id_column|].
  apply (StronglySorted_sublist _ _ (sale_id <$> generate_sales_data draws)).
  - apply fmap_sublist. rewrite filter_records_keeps. apply filter_sublist.
  - rewrite generated_id_column.
    apply (StronglySorted_fmap _ lt); [intros; lia|].
    apply StronglySorted_seq.
Qed.

Lemma generated_ids_witness :
  sale_id <$> generate_sales_data
    [mkDraw "Home" "West" 3 (dec 10 1) 2 (dec 1 10) false;
     mkDraw "Beauty" "East" 30 (dec 20 1) 1 (dec 0 1) true]
  = [1%Z; 2%Z].
Proof.
  refine (proj1 (proj2 (generated_ids
    [mkDraw "Home" "West" 3 (dec 10 1) 2 (dec 1 10) false;
     mkDraw "Beauty" "East" 30 (dec 20 1) 1 (dec 0 1) true]
    any_date_price _))).
  done.
Defined.

Lemma add_days_window (k : nat) :
  k < 180 →
  date_le start (add_days start k) ∧
  date_le (add_days start k) (mkDate 2024 6 28).
Proof.
  intros Hk.
  assert (Forall (λ k, date_le start (add_days start k) ∧
                       date_le (add_days start k) (mkDate 2024 6 28))
                 (seq 0 180)) as Hall.
  { apply (bool_decide_unpack _). vm_compute. exact I. }
  eapply Forall_forall in Hall; [exact Hall|].
  apply elem_of_seq. lia.
Qed.

Lemma Qcmult_le_mono (a b c d : Qc) :
  (0 ≤ a)%Qc → (a ≤ b)%Qc → (0 ≤ c)%Qc → (c ≤ d)%Qc → (a * c ≤ b * d)%Qc.
Proof.
  intros Ha Hab Hc Hcd. apply Qcle_trans with (b * c)%Qc.
  - by apply Qcmult_le_mono_nonneg_r.
  - apply Qcmult_le_mono_nonneg_l; [exact (Qcle_trans _ _ _ Ha Hab) | done].
Qed.

(** X19.  When the draws are within the ranges of the numpy calls, every
    generated row has a listed category and region, a date from 2024-01-01
    to 2024-06-28, a price from 5 to 500, a quantity from 1 to 9, a discount
    from 0 to 0.3, and a revenue from 3.5 to 4500. *)
Theorem generated_rows_in_range (draws : list Draw) (r : Sale) :
  Forall drawn_in_range draws →
  r ∈ generate_sales_data draws →
  category r ∈ categories ∧ region r ∈ regions ∧
  (date_le start (date r) ∧ date_le (date r) (mkDate 2024 6 28)) ∧
  ((Qc_of_Z 5 ≤ price r)%Qc ∧ (price r ≤ Qc_of_Z 500)%Qc) ∧
  (1 ≤ quantity r ≤ 9)%Z ∧
  ((0 ≤ discount r)%Qc ∧ (discount r ≤ Q2Qc (3 # 10))%Qc) ∧
  ((Q2Qc (7 # 2) ≤ revenue r)%Qc ∧ (revenue r ≤ Qc_of_Z 4500)%Qc).
Proof.
  intros Hall (i & d & -> & Hd)%elem_of_lookup_imap.
  eapply Forall_lookup in Hall; [|exact Hd].
  destruct Hall as (Hc & Hg & Hk & Hp1 & Hp2 & Hq & Hd1 & Hd2).
  simpl.
  assert (Qc_of_Z 1 ≤ Qc_of_Z (draw_quantity d))%Qc as Hq1
    by (apply (proj1 (Z2Qc_inj_le _ _)); lia).
  assert (Qc_of_Z (draw_quantity d) ≤ Qc_of_Z 9)%Qc as Hq9
    by (apply (proj1 (Z2Qc_inj_le _ _)); lia).
  assert (Q2Qc (7 # 10) ≤ 1 - draw_discount d)%Qc as Hlo.
  { replace (Q2Qc (7 # 10)) with (1 + - Q2Qc (3 # 10))%Qc
      by (apply Qc_is_canon; by vm_compute).
    unfold Qcminus. apply Qcplus_le_mono_l. by apply Qcopp_le_compat. }
  assert (1 - draw_discount d ≤ 1)%Qc as Hhi.
  { rewrite <-(Qcplus_0_r 1) at 2.
    unfold Qcminus. apply Qcplus_le_mono_l.
    replace 0%Qc with (- 0)%Qc by (apply Qc_is_canon; by vm_compute).
    by apply Qcopp_le_compat. }
  assert (0 ≤ draw_price d)%Qc as Hp0
    by (eapply Qcle_trans; [|exact Hp1]; by vm_compute).
  assert (0 ≤ Qc_of_Z (draw_quantity d))%Qc as Hq0
    by (eapply Qcle_trans; [|exact Hq1]; by vm_compute).
  split; [done|]. split; [done|].
  split; [by apply add_days_window|].
  split; [done|]. split; [lia|]. split; [done|].
  split.
  - replace (Q2Qc (7 # 2)) with (Qc_of_Z 5 * Qc_of_Z 1 * Q2Qc (7 # 10))%Qc
      by (apply Qc_is_canon; by vm_compute).
    apply Qcmult_le_mono; [by vm_compute| |by vm_compute|done].
    apply Qcmult_le_mono; [by vm_compute|done|by vm_compute|done].
  - replace (Qc_of_Z 4500) with (Qc_of_Z 500 * Qc_of_Z 9 * 1)%Qc
      by (apply Qc_is_canon; by vm_compute).
    apply Qcmult_le_mono; [| | |done].
    + by apply Qcmult_nonneg_nonneg.
    + by apply Qcmult_le_mono.
    + eapply Qcle_trans; [|exact Hlo]. by vm_compute.
Qed.

Lemma generated_rows_in_range_witness :
  (Q2Qc (7 # 2) ≤ dec 10 1 * Qc_of_Z 2 * (1 - dec 1 10))%Qc.
Proof.
  refine (proj1 (proj2 (proj2 (proj2 (proj2 (proj2 (proj2
    (generated_rows_in_range
       [mkDraw "Home" "West" 3 (dec 10 1) 2 (dec 1 10) false]
       (sale_row 1 "Home" "West" (add_days start 3) (dec 10 1) 2
                 (dec 1 10) false) _ _)))))))).
  - constructor; [|constructor].
    unfold drawn_in_range, categories, regions. simpl.
    repeat split; try lia; try (by vm_compute).
    + do 2 right. left.
    + do 3 right. left.
  - left.
Defined.

(** ** The monthly trend *)

Lemma string_compare_trans (a b c : string) :
  String.compare a b ≠ Gt → String.compare b c ≠ Gt →
  String.compare a c ≠ Gt.
Proof.
  revert b c. induction a as [|x a IH]; intros [|y b] [|z c]; simpl;
    try done.
  unfold Ascii.compare.
  destruct (N.compare_spec (Ascii.N_of_ascii x) (Ascii.N_of_ascii y)),
           (N.compare_spec (Ascii.N_of_ascii y) (Ascii.N_of_ascii z)),
           (N.compare_spec (Ascii.N_of_ascii x) (Ascii.N_of_ascii z));
    try done; try lia.
  apply IH.
Qed.

#[global] Instance str_le_trans : Transitive str_le.
Proof.
  intros a b c. unfold str_le, String.leb. intros Hab Hbc.
  pose proof (string_compare_trans a b c) as Ht.
  destruct (String.compare a b), (String.compare b c),
           (String.compare a c); try done; by destruct Ht.
Qed.

Lemma StronglySorted_lookup_lt {A : Type} (R : relation A) (l : list A)
    (i j : nat) (x y : A) :
  StronglySorted R l → l !! i = Some x → l !! j = Some y → i < j → R x y.
Proof.
  intros Hs. revert i j. induction Hs as [|z l Hl IH Hz]; intros i j Hi Hj Hij.
  - done.
  - destruct j as [|j]; [lia|]. destruct i as [|i].
    + simpl in Hi, Hj. injection Hi as ->.
      eapply Forall_forall in Hz; [exact Hz|].
      by eapply list_elem_of_lookup_2.
    + simpl in Hi, Hj. apply (IH i j); [done|done|lia].
Qed.

Lemma digit_compare (x y : Z) :
  (0 ≤ x ≤ 9)%Z → (0 ≤ y ≤ 9)%Z →
  Ascii.compare (digit x) (digit y) = (x ?= y)%Z.
Proof.
  intros Hx Hy. unfold Ascii.compare, digit.
  rewrite !Ascii.N_ascii_embedding by lia.
  destruct (N.compare_spec (48 + Z.to_N x) (48 + Z.to_N y)),
           (Z.compare_spec x y); try done; lia.
Qed.

(** On dates with a four-digit year and a month from 1 to 12, the text
    of an earlier month is smaller as a string. *)
Lemma month_text_lt (a b : Date) :
  (1000 ≤ year a ≤ 9999)%Z → (1 ≤ month a ≤ 12)%Z →
  (1000 ≤ year b ≤ 9999)%Z → (1 ≤ month b ≤ 12)%Z →
  month_lt a b →
  String.compare (month_text a) (month_text b) = Lt.
Proof.
  intros Hya Hma Hyb Hmb Hlt. unfold month_text, month_lt in *. simpl.
  rewrite !digit_compare by (Z.div_mod_to_equations; lia).
  replace (Ascii.compare (Ascii.ascii_of_N 45) (Ascii.ascii_of_N 45))
    with Eq by reflexivity.
  destruct (Z.compare_spec (year a / 1000) (year b / 1000));
    [|done|Z.div_mod_to_equations; lia].
  destruct (Z.compare_spec (year a / 100 mod 10) (year b / 100 mod 10));
    [|done|Z.div_mod_to_equations; lia].
  destruct (Z.compare_spec (year a / 10 mod 10) (year b / 10 mod 10));
    [|done|Z.div_mod_to_equations; lia].
  destruct (Z.compare_spec (year a mod 10) (year b mod 10));
    [|done|Z.div_mod_to_equations; lia].
  destruct (Z.compare_spec (month a / 10) (month b / 10));
    [|done|Z.div_mod_to_equations; lia].
  destruct (Z.compare_spec (month a mod 10) (month b mod 10));
    [|done|Z.div_mod_to_equations; lia].
  Z.div_mod_to_equations; lia.
Qed.

(** X17.  The monthly revenue table is in calendar order although its keys
    are texts: on a frame whose dates have a four-digit year, the row of an
    earlier month comes before the row of a later one, and each month of
    the frame has exactly one row. *)
Theorem monthly_rev_chronological (df : list Sale) :
  (∀ r, r ∈ df →
     (1000 ≤ year (date r) ≤ 9999)%Z ∧ (1 ≤ month (date r) ≤ 12)%Z) →
  (∀ i j r1 r2,
     r1 ∈ df → r2 ∈ df →
     (monthly_rev df).*1 !! i = Some (sale_month r1) →
     (monthly_rev df).*1 !! j = Some (sale_month r2) →
     i < j → month_lt (date r1) (date r2)) ∧
  NoDup (monthly_rev df).*1 ∧
  (∀ m, m ∈ (monthly_rev df).*1 ↔ ∃ r, r ∈ df ∧ sale_month r = m).
Proof.
  intros Hvalid. unfold monthly_rev.
  rewrite groupby_sum_keys.
  split; [|split; [apply group_keys_NoDup|]].
  - intros i j r1 r2 Hr1 Hr2 Hi Hj Hij.
    assert (str_le (sale_month r1) (sale_month r2)) as Hle.
    { eapply (StronglySorted_lookup_lt str_le); [|exact Hi|exact Hj|exact Hij].
      apply StronglySorted_merge_sort; apply _. }
    assert (sale_month r1 ≠ sale_month r2) as Hne.
    { intros Heq. rewrite <-Heq in Hj.
      pose proof (NoDup_lookup _ i j _ (group_keys_NoDup _ _ _) Hi Hj). lia. }
    destruct (Hvalid r1 Hr1) as [Hy1 Hm1], (Hvalid r2 Hr2) as [Hy2 Hm2].
    destruct (decide (month_lt (date r1) (date r2))) as [|Hn]; [done|].
    exfalso.
    destruct (decide (year (date r1) = year (date r2)
                      ∧ month (date r1) = month (date r2))) as [[Hy Hm]|Hd].
    + apply Hne. unfold sale_month, month_text. by rewrite Hy, Hm.
    + assert (month_lt (date r2) (date r1)) as Hgt
        by (unfold month_lt in *; lia).
      apply month_text_lt in Hgt; [|done..].
      unfold str_le, String.leb, sale_month in Hle.
      rewrite String.compare_antisym, Hgt in Hle. done.
  - apply elem_of_group_keys.
Qed.

Lemma monthly_rev_chronological_witness :
  (monthly_rev scenario).*1 = ["2024-01"; "2024-02"] ∧
  month_lt (date sale2) (date sale3).
Proof.
  split; [reflexivity|].
  refine (proj1 (monthly_rev_chronological scenario _) 0 1 sale2 sale3
            _ _ _ _ _).
  - apply scenario_rows; simpl; lia.
  - right. left.
  - do 2 right. left.
  - reflexivity.
  - reflexivity.
  - lia.
Defined.

(** ** Branches that are never taken *)

Lemma group_keys_nil_iff {K : Type} `{!EqDecision K} (key_le : relation K)
    `{!RelDecision key_le} (key : Sale → K) (df : list Sale) :
  group_keys key_le key df = [] ↔ df = [].
Proof.
  split; [|by intros ->].
  destruct df as [|r df]; [done|]. intros Hnil.
  assert (key r ∈ group_keys key_le key (r :: df)) as Hin
    by (apply elem_of_group_keys; exists r; split; [left|done]).
  rewrite Hnil in Hin. by inversion Hin.
Qed.

Lemma fmap_nil_iff {A B : Type} (f : A → B) (l : list A) :
  f <$> l = [] ↔ l = [].
Proof. by destruct l. Qed.

Lemma merge_sort_nil_iff {A : Type} (R : relation A) `{!RelDecision R}
    (l : list A) :
  merge_sort R l = [] ↔ l = [].
Proof.
  split; intros H.
  - apply Permutation_nil_r. by rewrite <-H, merge_sort_Permutation.
  - subst. apply Permutation_nil_r. by rewrite merge_sort_Permutation.
Qed.

(** X20.  Every roll-up of [create_visualizations] has a row exactly when the
    frame has one: on a frame with rows none of the inner
    [if len(...) > 0] guards fails, so the "No monthly data available"
    note of line 244 is never shown, and on the empty frame every table is
    empty. *)
Theorem rollups_empty_iff (df : list Sale) :
  (monthly_rev df = [] ↔ df = []) ∧
  (rev_by_cat df = [] ↔ df = []) ∧
  (region_counts df = [] ↔ df = []) ∧
  (return_by_cat df = [] ↔ df = []) ∧
  (daily_sales df = [] ↔ df = []) ∧
  (cat_performance df = [] ↔ df = []) ∧
  (sunburst_data df = [] ↔ df = []).
Proof.
  unfold monthly_rev, rev_by_cat, region_counts, return_by_cat, daily_sales,
    cat_performance, sunburst_data, sort_values_desc, sort_counts_desc,
    groupby_sum, groupby_size, groupby_sum_Z.
  rewrite !merge_sort_nil_iff, !fmap_nil_iff, !group_keys_nil_iff.
  tauto.
Qed.

(** X21.  Whatever the date widget returns, the normalized date range never has
    exactly one element: within [apply_filters] the equality mask of line
    131 is never the one applied, and the date mask is skipped only when the
    widget returned an empty sequence. *)
Theorem normalized_range_never_single (min_date max_date : Date)
    (inp : DateInput) :
  length (normalize_date_range min_date max_date inp) ≠ 1 ∧
  (normalize_date_range min_date max_date inp = [] ↔ inp = DateSeq []).
Proof.
  destruct inp as [[|d0 [|d1 ds]]|d|]; simpl; split; try done; lia.
Qed.


(** ** The KPI bundle in binary64 *)

Lemma wrap64_small (z : Z) : (- 2 ^ 63 ≤ z < 2 ^ 63)%Z → wrap64 z = z.
Proof. intros Hz. unfold wrap64. rewrite Z.mod_small; lia. Qed.

Lemma wrap64_add (a x : Z) : wrap64 (wrap64 a + x) = wrap64 (a + x).
Proof.
  unfold wrap64.
  replace ((a + 2 ^ 63) mod 2 ^ 64 - 2 ^ 63 + x + 2 ^ 63)%Z
    with ((a + 2 ^ 63) mod 2 ^ 64 + x)%Z by lia.
  rewrite Zplus_mod_idemp_l. do 2 f_equal. lia.
Qed.

Lemma sum_int64_wrap (l : list Z) : sum_int64 l = wrap64 (sum_Z l).
Proof.
  unfold sum_int64.
  assert (∀ a, foldl (λ acc x, wrap64 (acc + x)) (wrap64 a) l
               = wrap64 (a + sum_Z l)) as Hgen.
  { induction l as [|x l IH]; intros a.
    - simpl. f_equal. lia.
    - simpl foldl. rewrite wrap64_add, IH. f_equal.
      change (sum_Z (x :: l)) with (x + sum_Z l)%Z. lia. }
  specialize (Hgen 0%Z). rewrite Z.add_0_l in Hgen.
  by rewrite <-Hgen.
Qed.

Lemma sum_returned64 (df : list Sale64) :
  sum_Z ((λ r, Z.b2z (returned64 r)) <$> df) = count_returned64 df.
Proof.
  unfold count_returned64. induction df as [|r df IH]; [done|].
  rewrite fmap_cons, filter_cons.
  change (sum_Z (?x :: ?l)) with (x + sum_Z l)%Z. rewrite IH.
  destruct (decide (returned64 r = true)) as [Hr|Hr].
  - rewrite Hr. simpl length. simpl Z.b2z. lia.
  - apply not_true_is_false in Hr. rewrite Hr. simpl Z.b2z. lia.
Qed.

Lemma calculate_kpis64_rows `{FloatSums} (df : list Sale64) :
  df ≠ [] → (Z.of_nat (length df) < 2 ^ 63)%Z →
  calculate_kpis64 df
  = {| total_sales64 := Z.of_nat (length df);
       total_revenue64 := column_sum (revenue64 <$> df);
       avg_order_value64 :=
         (column_sum (revenue64 <$> df)
          / float_of_int (Z.of_nat (length df)))%float;
       return_rate64 :=
         (float_of_int (count_returned64 df)
          / float_of_int (Z.of_nat (length df)) * 100)%float;
       avg_discount64 :=
         (column_sum (discount64 <$> df)
          / float_of_int (Z.of_nat (length df)) * 100)%float;
       total_quantity64 := wrap64 (sum_Z (quantity64 <$> df)) |}.
Proof.
  intros Hne Hlen. unfold calculate_kpis64.
  rewrite decide_False by (destruct df; [done | simpl; lia]).
  rewrite !sum_int64_wrap, sum_returned64.
  rewrite (wrap64_small (count_returned64 df)); [done|].
  unfold count_returned64.
  pose proof (length_filter (λ r, returned64 r = true) df). lia.
Qed.


Lemma kpis64_electronics `{FloatSums} :
  calculate_kpis64 [sale1_64; sale3_64]
  = {| total_sales64 := 2; total_revenue64 := 340;
       avg_order_value64 := 170; return_rate64 := 0;
       avg_discount64 := 0x1.e000000000001p+3; total_quantity64 := 3 |}.
Proof.
  rewrite (calculate_kpis64_rows [sale1_64; sale3_64]); [|done|reflexivity].
  rewrite !column_sum_short by first [reflexivity | simpl; lia].
  reflexivity.
Qed.

(** C3, as stated, fails on the scenario: the code computes
    ((0.1 + 0.2) / 2) * 100 in binary64, which is 15.000000000000002 and
    not 15, whatever way numpy sums a long column. *)
Lemma avg_discount_is_not_15 :
  ¬ (∃ S : FloatSums,
       avg_discount64 (@calculate_kpis64 S [sale1_64; sale3_64]) = 15%float).
Proof.
  intros [S HS]. rewrite kpis64_electronics in HS. simpl in HS.
  apply (f_equal (λ x, PrimFloat.eqb x 15)) in HS. vm_compute in HS.
  discriminate.
Qed.

(** C3, amended.  On a frame with rows the bundle holds the count, the
    column sum of the revenues, that sum divided by the count, the number
    of returned rows divided by the count and then multiplied by 100, the
    column sum of the discounts divided by the count and then multiplied by
    100, all in binary64, and the int64 sum of the quantities, which is
    their sum whenever that fits in 64 bits; on the scenario the category
    filter keeps rows 1 and 3, and their bundle is 2, 340, 170, 0,
    15.000000000000002 (0x1.e000000000001p+3), 3. *)
Theorem calculate_kpis_binary64 `{FloatSums} :
  (∀ df : list Sale64,
     df ≠ [] → (Z.of_nat (length df) < 2 ^ 63)%Z →
     calculate_kpis64 df
     = {| total_sales64 := Z.of_nat (length df);
          total_revenue64 := column_sum (revenue64 <$> df);
          avg_order_value64 :=
            (column_sum (revenue64 <$> df)
             / float_of_int (Z.of_nat (length df)))%float;
          return_rate64 :=
            (float_of_int (count_returned64 df)
             / float_of_int (Z.of_nat (length df)) * 100)%float;
          avg_discount64 :=
            (column_sum (discount64 <$> df)
             / float_of_int (Z.of_nat (length df)) * 100)%float;
          total_quantity64 := wrap64 (sum_Z (quantity64 <$> df)) |} ∧
     ((- 2 ^ 63 ≤ sum_Z (quantity64 <$> df) < 2 ^ 63)%Z →
      total_quantity64 (calculate_kpis64 df) = sum_Z (quantity64 <$> df))) ∧
  filter (λ r, category64 r = "Electronics") scenario64
  = [sale1_64; sale3_64] ∧
  calculate_kpis64 [sale1_64; sale3_64]
  = {| total_sales64 := 2; total_revenue64 := 340;
       avg_order_value64 := 170; return_rate64 := 0;
       avg_discount64 := 0x1.e000000000001p+3; total_quantity64 := 3 |}.
Proof.
  split; [|split].
  - intros df Hne Hlen. rewrite calculate_kpis64_rows by done.
    split; [done|]. simpl. apply wrap64_small.
  - reflexivity.
  - apply kpis64_electronics.
Qed.

Lemma calculate_kpis_binary64_witness :
  [sale1_64; sale3_64] ≠ [] ∧
  total_quantity64 (@calculate_kpis64 left_to_right [sale1_64; sale3_64])
  = sum_Z (quantity64 <$> [sale1_64; sale3_64]).
Proof.
  split; [done|].
  refine (proj2 (proj1 (@calculate_kpis_binary64 left_to_right)
                   [sale1_64; sale3_64] _ _) _); [done|reflexivity|].
  by vm_compute.
Defined.

(** The order of the operations matters: on the whole scenario, one row
    of three is returned and the code's rate is (1 / 3) * 100, which is not
    the float (100 * 1) / 3. *)
Example return_rate_order `{FloatSums} :
  return_rate64 (calculate_kpis64 scenario64) = (1 / 3 * 100)%float ∧
  (1 / 3 * 100)%float ≠ (100 * 1 / 3)%float.
Proof.
  split.
  - rewrite (calculate_kpis64_rows scenario64); [|done|reflexivity].
    reflexivity.
  - intros Heq.
    apply (f_equal (λ x, PrimFloat.eqb x (100 * 1 / 3))) in Heq.
    vm_compute in Heq. discriminate.
Qed.

(** ** The roll-up and the total *)






